(** * dbdict: a dictionary interface over one SQL table

    Shallow embedding of [libs/dbdict.py] (classes [Table] and [Pivot]) and
    the properties its specification states about them.

    Layout:
    - Python values and insertion-ordered dictionaries;
    - the SQL text the f-strings of the module build;
    - a model of the DB-API collaborator (one table, a cursor, commit);
    - an exception/state monad threading connection, cursor and the store
      of caller-owned dictionaries;
    - [Table] and [Pivot] methods, translated statement by statement;
    - the theorems.

    Modelling notes:
    - the table is connected ([Table.connect] has run), so [self.local.con]
      and [self.local.cur] are the connection state threaded below;
    - [fetchone] hands back a tuple or [None], as pymysql, mariadb and
      mysqlclient do;
    - [executemany] executes its statement once per parameter tuple, in
      order, taking each tuple from the generator right before it;
    - SQL statements are kept structured ([stmt]) with [render] giving
      the text the f-strings build; the database interprets the
      structure;
    - a dictionary passed by the caller lives in a store and is reached
      through its reference, so in-place updates are visible to every
      holder of the reference. *)

From Stdlib Require Import List String Ascii ZArith Bool Arith Lia.
Import ListNotations.
Open Scope list_scope.
Open Scope string_scope.

Set Implicit Arguments.

(* ================================================================= *)
(** ** Python values *)

(** The Python objects that flow through the module: [None], integers,
    strings, tuples and lists.  Keys, cell values, fetched rows and the
    results of [Pivot.__getitem__] all live here. *)
#[warnings="-register-all"]
Inductive value : Type :=
| VNone
| VInt (z : Z)
| VStr (s : string)
| VTuple (items : list value)
| VList (items : list value).

Fixpoint value_eqb (a b : value) {struct a} : bool :=
  let fix items_eqb (l m : list value) {struct l} : bool :=
    match l, m with
    | [], [] => true
    | x :: l', y :: m' => value_eqb x y && items_eqb l' m'
    | _, _ => false
    end in
  match a, b with
  | VNone, VNone => true
  | VInt x, VInt y => Z.eqb x y
  | VStr s, VStr t => String.eqb s t
  | VTuple l, VTuple m => items_eqb l m
  | VList l, VList m => items_eqb l m
  | _, _ => false
  end.

(** [isinstance(v, tuple)] *)
Definition is_tuple (v : value) : bool :=
  match v with VTuple _ => true | _ => false end.

(** [isinstance(v, list)] *)
Definition is_list (v : value) : bool :=
  match v with VList _ => true | _ => false end.

(** [v is None] *)
Definition is_none (v : value) : bool :=
  match v with VNone => true | _ => false end.

(** Values a driver can bind to a placeholder or store in a cell. *)
Definition is_scalar (v : value) : bool :=
  match v with VTuple _ | VList _ => false | _ => true end.

(** [iter(v)]: tuples and lists yield their items, a string its
    characters; anything else is not iterable. *)
Definition iter_value (v : value) : option (list value) :=
  match v with
  | VTuple l | VList l => Some l
  | VStr s => Some (map (fun ch => VStr (String ch EmptyString)) (list_ascii_of_string s))
  | _ => None
  end.

(* ================================================================= *)
(** ** Insertion-ordered dictionaries *)

Section Dict.
Variables K V : Type.
Variable eqb : K -> K -> bool.

Definition dict := list (K * V).

Fixpoint dict_get (k : K) (d : dict) : option V :=
  match d with
  | [] => None
  | (k', v) :: d' => if eqb k' k then Some v else dict_get k d'
  end.

(** [d[k] = v]: an existing entry keeps its position, a new one goes
    last. *)
Fixpoint dict_set (k : K) (v : V) (d : dict) : dict :=
  match d with
  | [] => [(k, v)]
  | (k', v') :: d' =>
      if eqb k' k then (k', v) :: d' else (k', v') :: dict_set k v d'
  end.

(** [del d[k]]; [None] stands for [KeyError]. *)
Fixpoint dict_del (k : K) (d : dict) : option dict :=
  match d with
  | [] => None
  | (k', v') :: d' =>
      if eqb k' k then Some d'
      else match dict_del k d' with
           | Some d'' => Some ((k', v') :: d'')
           | None => None
           end
  end.

(** [dict(pairs)]: later pairs overwrite earlier ones. *)
Definition dict_of_pairs (ps : list (K * V)) : dict :=
  fold_left (fun d kv => dict_set (fst kv) (snd kv) d) ps [].

(** [d.keys()] and [d.values()], in insertion order. *)
Definition dict_keys (d : dict) : list K := map fst d.
Definition dict_values (d : dict) : list V := map snd d.
End Dict.

(** Dictionaries keyed by column name. *)
Definition sdict := dict string value.
Definition sget := dict_get (V:=value) String.eqb.
Definition sset := dict_set (V:=value) String.eqb.

(* ================================================================= *)
(** ** SQL text *)

Module Sql.

(** [s[:-1]] *)
Definition drop_last (s : string) : string :=
  substring 0 (String.length s - 1) s.

(** [''.join(f(x) for x in xs)] *)
Definition join_map (f : string -> string) (xs : list string) : string :=
  String.concat EmptyString (map f xs).

(** ['%s,' * n] *)
Definition times (s : string) (n : nat) : string :=
  String.concat EmptyString (repeat s n).

(** The statement shapes the module sends to [cursor.execute] /
    [cursor.executemany]. *)
Inductive stmt : Type :=
| SSelect (cols : list string) (tbl pk : string)
| SSelectAll (tbl pk : string)
| SUpdate (tbl : string) (cols : list string) (pk : string)
| SInsert (tbl : string) (cols : list string).

(** The text of each statement, as the f-strings build it. *)
Definition render (s : stmt) : string :=
  match s with
  | SSelect cols tbl pk =>
      "SELECT " ++ drop_last (join_map (fun col => col ++ ",") cols)
      ++ " FROM " ++ tbl ++ " WHERE " ++ pk ++ "=%s"
  | SSelectAll tbl pk =>
      "SELECT * FROM " ++ tbl ++ " WHERE " ++ pk ++ "=%s"
  | SUpdate tbl cols pk =>
      "UPDATE " ++ tbl ++ " SET "
      ++ drop_last (join_map (fun col => col ++ "=%s,") cols)
      ++ " WHERE " ++ pk ++ "=%s"
  | SInsert tbl cols =>
      "INSERT INTO " ++ tbl ++ " ("
      ++ drop_last (join_map (fun col => col ++ ",") cols)
      ++ ") VALUES (" ++ drop_last (times "%s," (List.length cols)) ++ ")"
  end.

(** The statements of [Table.__delitem__] and [Table.__len__]. *)
Inductive more_stmt : Type :=
| SDelete (tbl pk : string)
| SCount (tbl : string).

Definition render_more (s : more_stmt) : string :=
  match s with
  | SDelete tbl pk => "DELETE FROM " ++ tbl ++ " WHERE " ++ pk ++ "=%s"
  | SCount tbl => "SELECT COUNT(*) FROM " ++ tbl
  end.

End Sql.
Import Sql.
Open Scope list_scope.

(* ================================================================= *)
(** ** The DB-API collaborator *)

(** The module talks to a driver through [cursor.execute],
    [cursor.executemany], [cursor.fetchone], [cursor.description] and
    [connection.commit].  The driver and the database behind it are not
    part of the module; [Db] is the reference model used for them: one
    table with named columns, one of which is the primary key. *)
Module Db.

(** A stored row: column name to cell value; an absent column reads as
    NULL. *)
Definition row := sdict.

Record database : Type := mkDB {
  db_name : string;
  db_pk : string;
  db_cols : list string;
  db_rows : list row
}.

Inductive dberr : Type :=
| NoSuchTable
| NoSuchColumn
| SyntaxError
| BadParameters
| IntegrityError.

(** What a statement leaves on the cursor. *)
Record cursor : Type := mkCursor {
  cur_rows : list (list value);
  cur_desc : list string
}.

Definition no_results : cursor := mkCursor [] [].

Definition row_get (c : string) (r : row) : value :=
  match sget c r with Some v => v | None => VNone end.

(** [WHERE col = key]: a NULL never compares equal. *)
Definition sql_matches (col : string) (key : value) (r : row) : bool :=
  negb (is_none key) && value_eqb (row_get col r) key.

Definition has_col (db : database) (c : string) : bool :=
  existsb (String.eqb c) (db_cols db).

Definition project (cols : list string) (r : row) : list value :=
  map (fun c => row_get c r) cols.

(** [SET c1=v1, c2=v2, ...], assignments applied left to right. *)
Definition assign (cols : list string) (vals : list value) (r : row) : row :=
  fold_left (fun r' cv => sset (fst cv) (snd cv) r') (combine cols vals) r.

(** Primary keys are not NULL and pairwise distinct. *)
Fixpoint pk_ok (pk : string) (rows : list row) : bool :=
  match rows with
  | [] => true
  | r :: rs =>
      negb (is_none (row_get pk r))
      && negb (existsb (fun r' => value_eqb (row_get pk r') (row_get pk r)) rs)
      && pk_ok pk rs
  end.

Definition set_rows (db : database) (rows : list row) : database :=
  mkDB (db_name db) (db_pk db) (db_cols db) rows.

Definition select (db : database) (cols : list string) (pk : string)
           (params : list value) : dberr + database * cursor :=
  match params with
  | [key] =>
      if negb (has_col db pk && forallb (has_col db) cols) then inl NoSuchColumn
      else inr (db, mkCursor (map (project cols)
                                  (filter (sql_matches pk key) (db_rows db)))
                             cols)
  | _ => inl BadParameters
  end.

(** The rows after [SET cols=vals WHERE pk=key]. *)
Definition update_where (pk : string) (key : value) (cols : list string)
           (vals : list value) (rows : list row) : list row :=
  map (fun r => if sql_matches pk key r then assign cols vals r else r) rows.

Definition update (db : database) (cols : list string) (pk : string)
           (params : list value) : dberr + database * cursor :=
  if negb (Nat.eqb (List.length params) (S (List.length cols))) then inl BadParameters
  else if negb (has_col db pk && forallb (has_col db) cols) then inl NoSuchColumn
  else
    let vals := removelast params in
    let key := last params VNone in
    let rows' := update_where pk key cols vals (db_rows db) in
    if existsb (String.eqb (db_pk db)) cols && negb (pk_ok (db_pk db) rows')
    then inl IntegrityError
    else inr (set_rows db rows', no_results).

Definition insert (db : database) (cols : list string)
           (params : list value) : dberr + database * cursor :=
  if negb (Nat.eqb (List.length params) (List.length cols)) then inl BadParameters
  else if negb (forallb (has_col db) cols) then inl NoSuchColumn
  else
    let r := assign cols params [] in
    let k := row_get (db_pk db) r in
    if is_none k
       || existsb (fun r' => value_eqb (row_get (db_pk db) r') k) (db_rows db)
    then inl IntegrityError
    else inr (set_rows db (db_rows db ++ [r]), no_results).

(** One execution of a statement with its bound parameters. *)
Definition exec (db : database) (s : stmt) (params : list value)
  : dberr + database * cursor :=
  let guarded (tbl : string) (cols : list string)
              (run : dberr + database * cursor) :=
    if negb (String.eqb tbl (db_name db)) then inl NoSuchTable
    else if match cols with [] => true | _ => false end then inl SyntaxError
    else if negb (forallb is_scalar params) then inl BadParameters
    else run in
  match s with
  | SSelect cols tbl pk => guarded tbl cols (select db cols pk params)
  | SSelectAll tbl pk => guarded tbl (db_cols db) (select db (db_cols db) pk params)
  | SUpdate tbl cols pk => guarded tbl cols (update db cols pk params)
  | SInsert tbl cols => guarded tbl cols (insert db cols params)
  end.

(** Is there a row whose column [pk] holds [key]? *)
Definition row_exists (db : database) (pk : string) (key : value) : bool :=
  existsb (sql_matches pk key) (db_rows db).

(** The first row whose column [pk] holds [key]. *)
Definition lookup (db : database) (pk : string) (key : value) : option row :=
  find (sql_matches pk key) (db_rows db).

(** The rows after [DELETE ... WHERE pk=key]. *)
Definition delete_where (pk : string) (key : value) (rows : list row)
  : list row :=
  filter (fun r => negb (sql_matches pk key r)) rows.

(** One execution of a DELETE or of the row count. *)
Definition exec_more (db : database) (s : more_stmt) (params : list value)
  : dberr + database * cursor :=
  match s with
  | SDelete tbl pk =>
      if negb (String.eqb tbl (db_name db)) then inl NoSuchTable
      else if negb (forallb is_scalar params) then inl BadParameters
      else match params with
           | [key] =>
               if negb (has_col db pk) then inl NoSuchColumn
               else inr (set_rows db (delete_where pk key (db_rows db)),
                         no_results)
           | _ => inl BadParameters
           end
  | SCount tbl =>
      if negb (String.eqb tbl (db_name db)) then inl NoSuchTable
      else match params with
           | [] =>
               inr (db, mkCursor [[VInt (Z.of_nat (List.length (db_rows db)))]]
                                 ["COUNT(*)"%string])
           | _ => inl BadParameters
           end
  end.

End Db.
Import Db.

(* ================================================================= *)
(** ** Effects: exceptions, connection state, caller-owned objects *)

Inductive exn : Type :=
| AttributeError (attr : string)
| TypeError (msg : string)
| KeyError (key : string)
| IndexError
| DriverError (e : dberr).

Inductive outcome (A : Type) : Type :=
| Ok (a : A)
| Raise (e : exn).
Arguments Ok {A} a.
Arguments Raise {A} e.

(** What the driver was asked to do, in order. *)
Inductive event : Type :=
| EvExecute (s : stmt) (params : list value)
| EvCommit.

(** The state behind [self.local.con] / [self.local.cur] of a connected
    table, plus the store holding the dictionaries callers pass by
    reference. *)
Record world : Type := mkWorld {
  w_db : database;
  w_committed : list row;
  w_cur : cursor;
  w_store : list sdict;
  w_log : list event
}.

Definition M (A : Type) : Type := world -> outcome A * world.

Definition ret {A} (a : A) : M A := fun w => (Ok a, w).

Definition raise {A} (e : exn) : M A := fun w => (Raise e, w).

Definition bind {A B} (m : M A) (k : A -> M B) : M B :=
  fun w => match m w with
           | (Ok a, w') => k a w'
           | (Raise e, w') => (Raise e, w')
           end.

Notation "x <- m ;; k" := (bind m (fun x => k))
  (at level 61, m at next level, right associativity).
Notation "m ;;; k" := (bind m (fun _ => k))
  (at level 61, right associativity).

(** [cursor.execute(sql, params)] *)
Definition execute (s : stmt) (params : list value) : M unit :=
  fun w =>
    let log' := w_log w ++ [EvExecute s params] in
    match exec (w_db w) s params with
    | inl e =>
        (Raise (DriverError e),
         mkWorld (w_db w) (w_committed w) (w_cur w) (w_store w) log')
    | inr (db', cur') =>
        (Ok tt, mkWorld db' (w_committed w) cur' (w_store w) log')
    end.

(** [cursor.fetchone()]: the next row as a tuple, or [None]. *)
Definition fetchone : M (option (list value)) :=
  fun w =>
    match cur_rows (w_cur w) with
    | [] => (Ok None, w)
    | r :: rs =>
        (Ok (Some r),
         mkWorld (w_db w) (w_committed w) (mkCursor rs (cur_desc (w_cur w)))
                 (w_store w) (w_log w))
    end.

(** The column names of [cursor.description]. *)
Definition description : M (list string) :=
  fun w => (Ok (cur_desc (w_cur w)), w).

(** [connection.commit()] *)
Definition commit : M unit :=
  fun w =>
    (Ok tt, mkWorld (w_db w) (db_rows (w_db w)) (w_cur w) (w_store w)
                    (w_log w ++ [EvCommit])).

(** Reading and writing a caller-owned dictionary through its
    reference. *)
Definition load (ref : nat) : M sdict :=
  fun w => match nth_error (w_store w) ref with
           | Some d => (Ok d, w)
           | None => (Raise (KeyError "dangling reference"), w)
           end.

Fixpoint replace_nth {A} (n : nat) (x : A) (l : list A) : list A :=
  match l, n with
  | [], _ => []
  | _ :: l', O => x :: l'
  | y :: l', S n' => y :: replace_nth n' x l'
  end.

Definition store (ref : nat) (d : sdict) : M unit :=
  fun w => (Ok tt, mkWorld (w_db w) (w_committed w) (w_cur w)
                           (replace_nth ref d (w_store w)) (w_log w)).

(** [cursor.execute] of a DELETE or of the row count.  The log keeps to
    the statement shapes of [stmt]; these executions show in the table
    and on the cursor. *)
Definition execute_more (s : more_stmt) (params : list value) : M unit :=
  fun w =>
    match exec_more (w_db w) s params with
    | inl e => (Raise (DriverError e), w)
    | inr (db', cur') =>
        (Ok tt, mkWorld db' (w_committed w) cur' (w_store w) (w_log w))
    end.

(** [connection.rollback()]: back to the committed rows. *)
Definition rollback : M unit :=
  fun w =>
    (Ok tt, mkWorld (set_rows (w_db w) (w_committed w)) (w_committed w)
                    (w_cur w) (w_store w) (w_log w)).

(* ================================================================= *)
(** ** The classes *)

(** [Table.__init__] keeps [name], [pk] and [insert_only] (and the
    thread-local connection, which is the [world]); its [module]
    argument is not kept on the object. *)
Record Table : Type := mkTable {
  name : string;
  pk : string;
  insert_only : bool
}.

(** [Pivot.__init__] *)
Record Pivot : Type := mkPivot {
  table : Table;
  keys : list value
}.

(** A column argument, [str] or [tuple[str]]. *)
Inductive colsarg : Type :=
| OneCol (col : string)
| Cols (cols : list string).

(** The two shapes [Pivot.to_dict] returns. *)
Inductive dict_result : Type :=
| Columns (d : sdict)
| ByKey (d : dict value sdict).

Module Pivot.

(** The [for key in self.keys] loop of [__getitem__]; [values] is the
    list being appended to. *)
Fixpoint getitem_loop (t : Table) (cols : list string) (keep_tuples : bool)
         (ks : list value) (values : list value) : M (list value) :=
  match ks with
  | [] => ret values
  | key :: rest =>
      execute (SSelect cols (name t) (pk t)) [key] ;;;
      row_values <- fetchone ;;
      row_values' <-
        (if negb keep_tuples && Nat.eqb (List.length cols) 1 then
           match row_values with
           | None =>
               (* [self.table.module]: the table has no such attribute *)
               raise (AttributeError "module")
           | Some vs =>
               match vs with
               | v :: _ => ret v
               | [] => raise IndexError
               end
           end
         else
           ret (match row_values with
                | Some vs => VTuple vs
                | None => VNone
                end)) ;;
      getitem_loop t cols keep_tuples rest (values ++ [row_values'])
  end.

Definition __getitem__ (self : Pivot) (cols : colsarg) (keep_tuples : bool)
  : M value :=
  let cols := match cols with OneCol c => [c] | Cols cs => cs end in
  values <- getitem_loop (table self) cols keep_tuples (keys self) [] ;;
  match values with
  | [v] => ret v
  | [] => ret VNone
  | _ => ret (VTuple values)
  end.

(** [iter(v)] or [TypeError] *)
Definition iterate (v : value) : M (list value) :=
  match iter_value v with
  | Some l => ret l
  | None => raise (TypeError "object is not iterable")
  end.

(** [executemany] consuming the generator
    [(row_values+(key,) for (row_values, key) in zip(values, self.keys))]:
    each parameter tuple is built right before its execution. *)
Fixpoint executemany_with_keys (s : stmt) (pairs : list (value * value))
  : M unit :=
  match pairs with
  | [] => ret tt
  | (row_values, key) :: rest =>
      match row_values with
      | VTuple vs =>
          execute s (vs ++ [key]) ;;;
          executemany_with_keys s rest
      | _ => raise (TypeError "unsupported operand type(s) for +")
      end
  end.

Definition __setitem__ (self : Pivot) (cols : colsarg) (values : value)
  : M unit :=
  let values :=
    if Nat.eqb (List.length (keys self)) 1 then VTuple [values] else values in
  vc <- match cols with
        | OneCol c =>
            vs <- iterate values ;;
            ret (map (fun v => VTuple [v]) vs, [c])
        | Cols cs =>
            vs <- iterate values ;;
            ret (vs, cs)
        end ;;
  executemany_with_keys
    (SUpdate (name (table self)) (snd vc) (pk (table self)))
    (combine (fst vc) (keys self)) ;;;
  commit.

Definition __len__ (self : Pivot) : M nat :=
  rows <- __getitem__ self (OneCol (pk (table self))) true ;;
  if is_list rows then
    (* [len] of a generator expression *)
    raise (TypeError "object of type 'generator' has no len()")
  else if is_none rows then ret 0
  else ret 1.

(** Truth value of a pivot: the class has no [__bool__], so Python
    tests [__len__() != 0]. *)
Definition truth (self : Pivot) : M bool :=
  n <- __len__ self ;;
  ret (negb (Nat.eqb n 0)).

(** The [for key in self.keys] loop of [to_dict]. *)
Fixpoint to_dict_loop (t : Table) (ks : list value) (rows : dict value sdict)
  : M (dict value sdict) :=
  match ks with
  | [] => ret rows
  | key :: rest =>
      execute (SSelectAll (name t) (pk t)) [key] ;;;
      row <- fetchone ;;
      rows' <-
        match row with
        | Some vs =>
            cols <- description ;;
            match dict_del String.eqb (pk t)
                           (dict_of_pairs String.eqb (combine cols vs)) with
            | Some d => ret (dict_set value_eqb key d rows)
            | None => raise (KeyError (pk t))
            end
        | None => ret (dict_set value_eqb key [] rows)
        end ;;
      to_dict_loop t rest rows'
  end.

Definition to_dict (self : Pivot) (keep_key : bool) : M dict_result :=
  rows <- to_dict_loop (table self) (keys self) [] ;;
  if negb keep_key && Nat.eqb (List.length rows) 1 then
    (* [rows.popitem()[1]] *)
    match rev rows with
    | (_, d) :: _ => ret (Columns d)
    | [] => raise (KeyError "popitem(): dictionary is empty")
    end
  else ret (ByKey rows).

(** The generator of [__iter__], as the list of the pivots it yields. *)
Definition __iter__ (self : Pivot) : list Pivot :=
  map (fun key => mkPivot (table self) [key]) (keys self).

(** [key in self.keys] *)
Definition __contains__ (self : Pivot) (key : value) : bool :=
  existsb (value_eqb key) (keys self).

(** Python's [a + b] on the values of the model. *)
Definition add_values (a b : value) : M value :=
  match a, b with
  | VInt x, VInt y => ret (VInt (x + y))
  | VStr s, VStr t => ret (VStr (s ++ t)%string)
  | VTuple l, VTuple m => ret (VTuple (l ++ m))
  | VList l, VList m => ret (VList (l ++ m))
  | _, _ => raise (TypeError "unsupported operand type(s) for +")
  end.

(** [return self[col] + col] *)
Definition __add__ (self : Pivot) (col : string) (value' : value) : M value :=
  v <- __getitem__ self (OneCol col) false ;;
  add_values v (VStr col).

(** [self.local.con.rollback()]: a pivot has no [local] attribute. *)
Definition rollback (self : Pivot) : M unit :=
  raise (AttributeError "local").

End Pivot.

Module Table.

Definition __getitem__ (self : Table) (ks : value) : Pivot :=
  let ks := if negb (is_tuple ks) then VTuple [ks] else ks in
  mkPivot self (match ks with VTuple l => l | _ => [] end).

(** [values] is the reference of the caller's dictionary. *)
Definition __setitem__ (self : Table) (key : value) (values : nat) : M unit :=
  present <- Pivot.truth (__getitem__ self key) ;;
  if present && negb (insert_only self) then
    d <- load values ;;
    execute (SUpdate (name self) (dict_keys d) (pk self))
            (dict_values d ++ [key]) ;;;
    commit
  else
    d <- load values ;;
    store values (sset (pk self) key d) ;;;
    d' <- load values ;;
    execute (SInsert (name self) (dict_keys d')) (dict_values d') ;;;
    commit.

(** [executemany] of the DELETE over the generator
    [((key,) for key in keys)]. *)
Fixpoint executemany_delete (s : more_stmt) (ks : list value) : M unit :=
  match ks with
  | [] => ret tt
  | key :: rest =>
      execute_more s [key] ;;;
      executemany_delete s rest
  end.

Definition __delitem__ (self : Table) (ks : value) : M unit :=
  let ks := if negb (is_tuple ks) then VTuple [ks] else ks in
  executemany_delete (SDelete (name self) (pk self))
                     (match ks with VTuple l => l | _ => [] end) ;;;
  commit.

(** [fetchone()[0]] of the row count. *)
Definition __len__ (self : Table) : M value :=
  execute_more (SCount (name self)) [] ;;;
  r <- fetchone ;;
  match r with
  | Some (v :: _) => ret v
  | Some [] => raise IndexError
  | None => raise (TypeError "'NoneType' object is not subscriptable")
  end.

Definition rollback (self : Table) : M unit :=
  rollback.

End Table.

(* ================================================================= *)
(** ** Specification-level definitions *)

(** The table object names the database's table and its primary-key
    column. *)
Definition bound (db : database) (t : Table) : bool :=
  String.eqb (name t) (db_name db)
  && String.eqb (pk t) (db_pk db)
  && has_col db (pk t).

(** The columns [cs] can be selected or assigned: there is at least one
    and each is a column of the table. *)
Definition columns_ok (db : database) (cs : list string) : bool :=
  negb (Nat.eqb (List.length cs) 0) && forallb (has_col db) cs.

(** The column list a column argument stands for. *)
Definition cols_of (cols : colsarg) : list string :=
  match cols with OneCol c => [c] | Cols cs => cs end.

(** What the column fetch for one key leaves to [fetchone]. *)
Definition fetched (db : database) (t : Table) (cs : list string)
           (key : value) : dberr + option (list value) :=
  match exec db (SSelect cs (name t) (pk t)) [key] with
  | inl e => inl e
  | inr (_, cur) => inr (hd_error (cur_rows cur))
  end.

(** The per-key result of a column read: a scalar when one column is
    read without [keep_tuples], otherwise the row tuple, or [None] for a
    missing row. *)
Definition per_key (db : database) (t : Table) (cs : list string)
           (keep_tuples : bool) (key : value) : outcome value :=
  let unwrap := negb keep_tuples && Nat.eqb (List.length cs) 1 in
  match fetched db t cs key with
  | inl e => Raise (DriverError e)
  | inr None => if unwrap then Raise (AttributeError "module") else Ok VNone
  | inr (Some vs) =>
      if unwrap then match vs with v :: _ => Ok v | [] => Raise IndexError end
      else Ok (VTuple vs)
  end.

(** All results in order, or the first exception. *)
Fixpoint sequence (os : list (outcome value)) : outcome (list value) :=
  match os with
  | [] => Ok []
  | Raise e :: _ => Raise e
  | Ok v :: os' =>
      match sequence os' with
      | Ok vs => Ok (v :: vs)
      | Raise e => Raise e
      end
  end.

(** The collapsing rule of a column read. *)
Definition collapse (rs : list value) : value :=
  match rs with
  | [] => VNone
  | [r] => r
  | _ => VTuple rs
  end.

(** The per-key result when the row is kept as a tuple. *)
Definition row_or_none (db : database) (t : Table) (cs : list string)
           (key : value) : value :=
  match lookup db (pk t) key with
  | Some r => VTuple (project cs r)
  | None => VNone
  end.

(** What [len] of a pivot is on a bound table. *)
Definition len_value (db : database) (t : Table) (ks : list value) : nat :=
  match ks with
  | [] => 0
  | [k] => if row_exists db (pk t) k then 1 else 0
  | _ => 1
  end.

(** The keys of a pivot without repetitions, first occurrences kept. *)
Definition distinct (ks : list value) : list value :=
  fold_left (fun seen k => if existsb (value_eqb k) seen then seen
                           else seen ++ [k]) ks [].

(** The column-to-value mapping of the row of [key], primary key left
    out; empty when there is no such row. *)
Definition row_mapping (db : database) (t : Table) (key : value) : sdict :=
  match lookup db (pk t) key with
  | Some r =>
      filter (fun cv => negb (String.eqb (fst cv) (pk t)))
             (combine (db_cols db) (project (db_cols db) r))
  | None => []
  end.

(** The existence probe of a row write. *)
Definition probe_event (t : Table) (key : value) : event :=
  EvExecute (SSelect [pk t] (name t) (pk t)) [key].

(** The UPDATE of a row write: the given columns, their values, then the
    key. *)
Definition update_event (t : Table) (key : value) (d : sdict) : event :=
  EvExecute (SUpdate (name t) (dict_keys d) (pk t)) (dict_values d ++ [key]).

(** The INSERT of a row write, over the mapping with the primary key
    bound to the key. *)
Definition insert_event (t : Table) (key : value) (d : sdict) : event :=
  EvExecute (SInsert (name t) (dict_keys (sset (pk t) key d)))
            (dict_values (sset (pk t) key d)).

(** Does a row write update (rather than insert)? *)
Definition updates (db : database) (t : Table) (key : value) : bool :=
  row_exists db (pk t) key && negb (insert_only t).

Definition write_event (db : database) (t : Table) (key : value) (d : sdict)
  : event :=
  if updates db t key then update_event t key d else insert_event t key d.

(** The driver's verdict on an event issued against [db]. *)
Definition verdict (db : database) (ev : event) : dberr + database * cursor :=
  match ev with
  | EvExecute s params => exec db s params
  | EvCommit => inr (db, no_results)
  end.

(** The value a column write takes for the per-key value lists [vss], in
    the shape the module documents: a scalar for one key and one column
    name, a tuple of values for one key and a column tuple or for several
    keys and one column name, a tuple of tuples otherwise. *)
Definition assigned (ks : list value) (cols : colsarg)
           (vss : list (list value)) : value :=
  match cols, ks with
  | OneCol _, [_] => hd VNone (hd [] vss)
  | OneCol _, _ => VTuple (map (hd VNone) vss)
  | Cols _, [_] => VTuple (hd [] vss)
  | Cols _, _ => VTuple (map VTuple vss)
  end.

(** The rows after one UPDATE per key, in key order. *)
Definition batch_rows (wc : string) (cs : list string) (ks : list value)
           (vss : list (list value)) (rows : list row) : list row :=
  fold_left (fun rs kv => update_where wc (fst kv) cs (snd kv) rs)
            (combine ks vss) rows.

(** Every key comes with one bindable value per column. *)
Definition well_shaped (cs : list string) (ks : list value)
           (vss : list (list value)) : bool :=
  Nat.eqb (List.length vss) (List.length ks)
  && forallb is_scalar ks
  && forallb (fun vs => Nat.eqb (List.length vs) (List.length cs)
                        && forallb is_scalar vs) vss.

(** The events a run appended to the log. *)
Definition issued (w w' : world) : list event :=
  skipn (List.length (w_log w)) (w_log w').

(** What every run of a column write guarantees about the log and the
    table. *)
Definition write_frame (t : Table) (cs : list string) (ks : list value)
           (w w' : world) : Prop :=
  Forall (fun ev => ev = EvCommit
                    \/ exists ps, ev = EvExecute (SUpdate (name t) cs (pk t)) ps)
         (issued w w')
  /\ List.length (db_rows (w_db w')) = List.length (db_rows (w_db w))
  /\ ((forall k, In k ks -> row_exists (w_db w) (pk t) k = false) ->
      db_rows (w_db w') = db_rows (w_db w))
  /\ (existsb (String.eqb (pk t)) cs = false ->
      forall k, row_exists (w_db w') (pk t) k = row_exists (w_db w) (pk t) k).

(* ================================================================= *)
(** ** Example data *)

Module Example.

Definition sales : Table := mkTable "sales" "transaction_id" false.

Definition sales_db : database :=
  mkDB "sales" "transaction_id" ["transaction_id"; "quantity"; "discount"]
       [ [("transaction_id", VStr "T121"); ("quantity", VInt 4);
          ("discount", VInt 5)];
         [("transaction_id", VStr "T122"); ("quantity", VInt 10)] ].

(** A connected table; the store holds the dictionaries
    [{"quantity": 7}] and [{"transaction_id": "T200"}]. *)
Definition w0 : world :=
  mkWorld sales_db (db_rows sales_db) no_results
          [ [("quantity", VInt 7)]; [("transaction_id", VStr "T200")] ] [].

End Example.

(** Reading the same columns through each of a list of pivots, in order:
    [[q[cols] for q in pivots]]. *)
Fixpoint read_each (ps : list Pivot) (cols : colsarg) (keep_tuples : bool)
  : M (list value) :=
  match ps with
  | [] => ret []
  | q :: rest =>
      v <- Pivot.__getitem__ q cols keep_tuples ;;
      vs <- read_each rest cols keep_tuples ;;
      ret (v :: vs)
  end.

(** The rows that match none of the keys [ks]. *)
Definition remaining (wc : string) (ks : list value) (rows : list row)
  : list row :=
  filter (fun r => negb (existsb (fun k => sql_matches wc k r) ks)) rows.

(** The table holds what was last committed. *)
Definition clean (w : world) : Prop :=
  w_committed w = db_rows (w_db w).

(** The mapping [d] can be stored as a row: its columns are distinct
    columns of the table and its values can be bound. *)
Definition storable (db : database) (d : sdict) : bool :=
  forallb (has_col db) (dict_keys d) && forallb is_scalar (dict_values d).

(** The per-key values of a column write, as the items of the value
    assigned: the value itself under one column name, the tuple of the
    values under a column tuple. *)
Definition per_key_values (cols : colsarg) (vss : list (list value))
  : list value :=
  match cols with
  | OneCol _ => map (hd VNone) vss
  | Cols _ => map VTuple vss
  end.

(** The value a column write over the keys [ks] is given for the per-key
    values [rows]: the one value itself when there is a single key, the
    tuple of them otherwise. *)
Definition value_over (ks : list value) (rows : list value) : value :=
  match ks with
  | [_] => hd VNone rows
  | _ => VTuple rows
  end.
(* ================================================================= *)
(** ** Basic facts: values and dictionaries *)

(** Induction on values that also covers the items of tuples and
    lists. *)
Lemma value_ind' (P : value -> Prop) :
  P VNone ->
  (forall z, P (VInt z)) ->
  (forall s, P (VStr s)) ->
  (forall l, Forall P l -> P (VTuple l)) ->
  (forall l, Forall P l -> P (VList l)) ->
  forall v, P v.
Proof.
  intros HN HI HS HT HL.
  fix IH 1.
  intros [ | z | s | l | l ].
  - exact HN.
  - apply HI.
  - apply HS.
  - apply HT. induction l as [ | x l IHl ]; constructor; [ apply IH | exact IHl ].
  - apply HL. induction l as [ | x l IHl ]; constructor; [ apply IH | exact IHl ].
Qed.

Lemma value_eqb_refl (v : value) : value_eqb v v = true.
Proof.
  induction v as [ | z | s | l IH | l IH ] using value_ind'; simpl.
  - reflexivity.
  - apply Z.eqb_refl.
  - apply String.eqb_refl.
  - induction IH as [ | x l Hx _ IHl ]; [ reflexivity | ].
    rewrite Hx. exact IHl.
  - induction IH as [ | x l Hx _ IHl ]; [ reflexivity | ].
    rewrite Hx. exact IHl.
Qed.

Lemma value_eqb_eq (a b : value) : value_eqb a b = true <-> a = b.
Proof.
  split; [ | intros ->; apply value_eqb_refl ].
  revert b.
  induction a as [ | z | s | l IH | l IH ] using value_ind';
    intros [ | z' | s' | l' | l' ]; simpl; try discriminate; intros H.
  - reflexivity.
  - apply Z.eqb_eq in H. now subst.
  - apply String.eqb_eq in H. now subst.
  - f_equal. revert l' H.
    induction IH as [ | x l Hx _ IHl ]; intros [ | y l' ] H;
      try discriminate; [ reflexivity | ].
    apply andb_true_iff in H as [H1 H2].
    f_equal; [ now apply Hx | now apply IHl ].
  - f_equal. revert l' H.
    induction IH as [ | x l Hx _ IHl ]; intros [ | y l' ] H;
      try discriminate; [ reflexivity | ].
    apply andb_true_iff in H as [H1 H2].
    f_equal; [ now apply Hx | now apply IHl ].
Qed.

Lemma value_eqb_neq (a b : value) : value_eqb a b = false <-> a <> b.
Proof.
  split.
  - intros H E. apply value_eqb_eq in E. congruence.
  - intros H. destruct (value_eqb a b) eqn:E; [ | reflexivity ].
    apply value_eqb_eq in E. contradiction.
Qed.

Section DictFacts.
Variables K V : Type.
Variable eqb : K -> K -> bool.
Hypothesis eqb_eq : forall a b, eqb a b = true <-> a = b.

Lemma eqb_same (a : K) : eqb a a = true.
Proof. now apply eqb_eq. Qed.

Lemma dict_get_set_same (k : K) (v : V) (d : dict K V) :
  dict_get eqb k (dict_set eqb k v d) = Some v.
Proof.
  induction d as [ | [k' v'] d IH ]; simpl.
  - now rewrite eqb_same.
  - destruct (eqb k' k) eqn:E; simpl; rewrite E; [ reflexivity | exact IH ].
Qed.

Lemma dict_get_set_other (k k0 : K) (v : V) (d : dict K V) :
  k0 <> k ->
  dict_get eqb k0 (dict_set eqb k v d) = dict_get eqb k0 d.
Proof.
  intros Hne.
  assert (Hk : eqb k k0 = false).
  { destruct (eqb k k0) eqn:E; [ | reflexivity ].
    apply eqb_eq in E. congruence. }
  induction d as [ | [k' v'] d IH ]; simpl.
  - now rewrite Hk.
  - destruct (eqb k' k) eqn:E; simpl.
    + apply eqb_eq in E. subst k'. now rewrite Hk.
    + now rewrite IH.
Qed.

(** A key that is not in the dictionary is appended. *)
Lemma dict_set_fresh (k : K) (v : V) (d : dict K V) :
  dict_get eqb k d = None -> dict_set eqb k v d = d ++ [(k, v)].
Proof.
  induction d as [ | [k' v'] d IH ]; simpl; [ reflexivity | ].
  destruct (eqb k' k); [ discriminate | ].
  intros H. now rewrite IH.
Qed.

(** Rebinding a key to the value it already has changes nothing. *)
Lemma dict_set_same_value (k : K) (v : V) (d : dict K V) :
  dict_get eqb k d = Some v -> dict_set eqb k v d = d.
Proof.
  induction d as [ | [k' v'] d IH ]; simpl; [ discriminate | ].
  destruct (eqb k' k) eqn:E.
  - intros H. injection H as ->. reflexivity.
  - intros H. now rewrite IH.
Qed.

Lemma dict_set_length_ge (k : K) (v : V) (d : dict K V) :
  1 <= List.length (dict_set eqb k v d).
Proof.
  destruct d as [ | [k' v'] d ]; simpl; [ lia | ].
  destruct (eqb k' k); simpl; lia.
Qed.
End DictFacts.

Lemma sget_sset_same (c : string) (v : value) (d : sdict) :
  sget c (sset c v d) = Some v.
Proof. apply dict_get_set_same, String.eqb_eq. Qed.

Lemma sget_sset_other (c c0 : string) (v : value) (d : sdict) :
  c0 <> c -> sget c0 (sset c v d) = sget c0 d.
Proof. apply dict_get_set_other, String.eqb_eq. Qed.

Unset Implicit Arguments.

(* ================================================================= *)
(** ** Facts about the database model *)

Lemma hd_error_map_filter {A B} (f : A -> B) (p : A -> bool) (l : list A) :
  hd_error (map f (filter p l)) = option_map f (find p l).
Proof.
  induction l as [ | x l IH ]; simpl; [ reflexivity | ].
  destruct (p x); simpl; [ reflexivity | exact IH ].
Qed.

Lemma find_existsb {A} (p : A -> bool) (l : list A) :
  existsb p l = match find p l with Some _ => true | None => false end.
Proof.
  induction l as [ | x l IH ]; simpl; [ reflexivity | ].
  destruct (p x); simpl; [ reflexivity | exact IH ].
Qed.

Lemma bound_name (db : database) (t : Table) :
  bound db t = true -> String.eqb (name t) (db_name db) = true.
Proof.
  unfold bound. intros H.
  apply andb_true_iff in H as [H _]. now apply andb_true_iff in H as [H _].
Qed.

Lemma bound_pk (db : database) (t : Table) :
  bound db t = true -> pk t = db_pk db.
Proof.
  unfold bound. intros H.
  apply andb_true_iff in H as [H _]. apply andb_true_iff in H as [_ H].
  now apply String.eqb_eq.
Qed.

Lemma bound_has_pk (db : database) (t : Table) :
  bound db t = true -> has_col db (pk t) = true.
Proof. unfold bound. intros H. now apply andb_true_iff in H as [_ H]. Qed.

Lemma columns_ok_cons (db : database) (cs : list string) :
  columns_ok db cs = true ->
  (exists c cs', cs = c :: cs') /\ forallb (has_col db) cs = true.
Proof.
  unfold columns_ok. intros H. apply andb_true_iff in H as [H1 H2].
  split; [ | exact H2 ].
  destruct cs as [ | c cs' ]; [ discriminate | eauto ].
Qed.

(** A well-formed column read succeeds and leaves the matching rows,
    projected, on the cursor. *)
Lemma exec_select_ok (db : database) (t : Table) (cs : list string)
      (key : value) :
  bound db t = true -> columns_ok db cs = true -> is_scalar key = true ->
  exec db (SSelect cs (name t) (pk t)) [key]
  = inr (db, mkCursor (map (project cs)
                           (filter (sql_matches (pk t) key) (db_rows db))) cs).
Proof.
  intros Hb Hc Hk.
  destruct (columns_ok_cons _ _ Hc) as [(c & cs' & ->) Hall].
  unfold exec, select.
  rewrite (bound_name _ _ Hb), (bound_has_pk _ _ Hb), Hall.
  simpl forallb. rewrite Hk. reflexivity.
Qed.

(** A read never changes the table. *)
Lemma exec_select_db (db db' : database) (cs : list string) (tbl c : string)
      (ps : list value) (cur : cursor) :
  exec db (SSelect cs tbl c) ps = inr (db', cur) -> db' = db.
Proof.
  unfold exec, select.
  destruct (negb (String.eqb tbl (db_name db))); [ discriminate | ].
  destruct cs as [ | c0 cs0 ]; [ discriminate | ].
  destruct (negb (forallb is_scalar ps)); [ discriminate | ].
  destruct ps as [ | k [ | k' ps' ] ]; try discriminate.
  destruct (negb _); [ discriminate | ].
  intros H. now injection H.
Qed.

Lemma fetched_ok (db : database) (t : Table) (cs : list string) (key : value) :
  bound db t = true -> columns_ok db cs = true -> is_scalar key = true ->
  fetched db t cs key = inr (option_map (project cs) (lookup db (pk t) key)).
Proof.
  intros Hb Hc Hk. unfold fetched, lookup.
  rewrite exec_select_ok by assumption. simpl.
  now rewrite hd_error_map_filter.
Qed.

Lemma row_exists_lookup (db : database) (c : string) (key : value) :
  row_exists db c key
  = match lookup db c key with Some _ => true | None => false end.
Proof. apply find_existsb. Qed.

(* ================================================================= *)
(** ** Table indexing *)

(** C8. [Table.__getitem__] returns a pivot of the same table whose keys
    are exactly the items of a tuple argument, in order, and the
    one-element sequence holding the argument when it is not a tuple.
    It is a function of its arguments alone: it takes no connection
    state, so sequencing it anywhere leaves the log and the database as
    they were. *)
Theorem Table_getitem_keys (t : Table) (arg : value) :
  table (Table.__getitem__ t arg) = t
  /\ (forall ks, arg = VTuple ks -> keys (Table.__getitem__ t arg) = ks)
  /\ (is_tuple arg = false -> keys (Table.__getitem__ t arg) = [arg])
  /\ (forall w, ret (Table.__getitem__ t arg) w
                = (Ok (Table.__getitem__ t arg), w)).
Proof.
  unfold Table.__getitem__. repeat split.
  - intros ks ->. reflexivity.
  - intros H. rewrite H. reflexivity.
Qed.

Lemma Table_getitem_keys_witness :
  keys (Table.__getitem__ Example.sales (VTuple [VStr "T121"; VStr "T122"]))
  = [VStr "T121"; VStr "T122"]
  /\ keys (Table.__getitem__ Example.sales (VStr "T121")) = [VStr "T121"].
Proof.
  split.
  - apply (Table_getitem_keys Example.sales (VTuple [VStr "T121"; VStr "T122"])).
    reflexivity.
  - apply (Table_getitem_keys Example.sales (VStr "T121")).
    reflexivity.
Defined.

(* ================================================================= *)
(** ** Column reads *)

(** The loop reads every key against the same table and appends the
    per-key results in key order, stopping at the first exception. *)
Lemma getitem_loop_spec (t : Table) (cs : list string) (keep : bool)
      (ks : list value) :
  forall (acc : list value) (w : world),
  exists w',
    Pivot.getitem_loop t cs keep ks acc w
    = (match sequence (map (per_key (w_db w) t cs keep) ks) with
       | Ok rs => Ok (acc ++ rs)
       | Raise e => Raise e
       end, w')
    /\ w_db w' = w_db w
    /\ w_committed w' = w_committed w
    /\ w_store w' = w_store w.
Proof.
  induction ks as [ | key rest IH ]; intros acc w.
  - exists w. simpl. unfold ret. now rewrite app_nil_r.
  - assert (Hnext : forall (v : value) (w1 : world),
               w_db w1 = w_db w -> w_committed w1 = w_committed w ->
               w_store w1 = w_store w ->
               exists w',
                 Pivot.getitem_loop t cs keep rest (acc ++ [v]) w1
                 = (match match sequence (map (per_key (w_db w) t cs keep) rest) with
                          | Ok vs => Ok (v :: vs)
                          | Raise e => Raise e
                          end with
                    | Ok rs => Ok (acc ++ rs)
                    | Raise e => Raise e
                    end, w')
                 /\ w_db w' = w_db w
                 /\ w_committed w' = w_committed w
                 /\ w_store w' = w_store w).
    { intros v w1 Hdb Hcm Hst.
      destruct (IH (acc ++ [v]) w1) as (w' & Hrun & Hdb' & Hcm' & Hst').
      rewrite Hdb in Hrun. exists w'.
      split; [ | repeat split; congruence ].
      rewrite Hrun. destruct (sequence _); [ | reflexivity ].
      do 2 f_equal. now rewrite <- app_assoc. }
    cbn [map sequence Pivot.getitem_loop].
    unfold per_key at 1, fetched at 1, bind at 1, execute at 1.
    destruct (exec (w_db w) (SSelect cs (name t) (pk t)) [key])
      as [ e | [db' cur'] ] eqn:E.
    + eexists. split; [ reflexivity | now repeat split ].
    + pose proof (exec_select_db _ _ _ _ _ _ _ E) as ->.
      unfold bind at 1, fetchone at 1. cbn [w_cur cur_rows].
      destruct (cur_rows cur') as [ | r rs ] eqn:Er; cbn [hd_error];
        unfold bind at 1;
        destruct (negb keep && Nat.eqb (List.length cs) 1).
      * eexists. split; [ reflexivity | now repeat split ].
      * unfold ret at 1. apply Hnext; reflexivity.
      * destruct r as [ | v r' ].
        -- eexists. split; [ reflexivity | now repeat split ].
        -- unfold ret at 1. apply Hnext; reflexivity.
      * unfold ret at 1. apply Hnext; reflexivity.
Qed.

Lemma sequence_all_ok (os : list (outcome value)) (rs : list value) :
  Forall2 (fun o r => o = Ok r) os rs -> sequence os = Ok rs.
Proof.
  induction 1 as [ | o r os rs Ho _ IH ]; [ reflexivity | ].
  subst o. simpl. now rewrite IH.
Qed.

Lemma sequence_ok_length (os : list (outcome value)) (rs : list value) :
  sequence os = Ok rs -> List.length rs = List.length os.
Proof.
  revert rs. induction os as [ | [v | e] os IH ]; intros rs; simpl.
  - intros H. injection H as <-. reflexivity.
  - destruct (sequence os) as [ vs | e ]; [ | discriminate ].
    intros H. injection H as <-. simpl. now rewrite (IH vs).
  - discriminate.
Qed.

(** [Pivot.__getitem__] is the loop followed by the collapsing rule. *)
Lemma Pivot_getitem_run (p : Pivot) (cols : colsarg) (keep : bool) (w : world) :
  exists w',
    Pivot.__getitem__ p cols keep w
    = (match sequence (map (per_key (w_db w) (table p) (cols_of cols) keep)
                           (keys p)) with
       | Ok rs => Ok (collapse rs)
       | Raise e => Raise e
       end, w')
    /\ w_db w' = w_db w
    /\ w_committed w' = w_committed w
    /\ w_store w' = w_store w.
Proof.
  unfold Pivot.__getitem__, bind.
  fold (cols_of cols).
  destruct (getitem_loop_spec (table p) (cols_of cols) keep (keys p) [] w)
    as (w' & Hrun & Hrest).
  rewrite Hrun. exists w'. split; [ | exact Hrest ].
  destruct (sequence _) as [ rs | e ]; [ | reflexivity ].
  simpl. destruct rs as [ | r [ | r' rs' ] ]; reflexivity.
Qed.

(** C2. A column read returns the per-key results, taken in key order,
    collapsed by the number of keys: [None] for no key, the one result
    itself for one key, the tuple of results for several keys; the first
    per-key exception, if any, is the outcome instead.  With a single
    column and [keep_tuples] false the per-key result of an existing row
    is the cell itself, not a one-element row. *)
Theorem Pivot_getitem_collapse (p : Pivot) (cols : colsarg) (keep : bool)
        (w : world) :
  let results :=
    map (per_key (w_db w) (table p) (cols_of cols) keep) (keys p) in
  (forall rs, Forall2 (fun o r => o = Ok r) results rs ->
     fst (Pivot.__getitem__ p cols keep w)
     = Ok (match keys p with
           | [] => VNone
           | [_] => hd VNone rs
           | _ => VTuple rs
           end))
  /\ (forall e, sequence results = Raise e ->
        fst (Pivot.__getitem__ p cols keep w) = Raise e)
  /\ (forall c key r,
        bound (w_db w) (table p) = true ->
        has_col (w_db w) c = true ->
        is_scalar key = true ->
        lookup (w_db w) (pk (table p)) key = Some r ->
        per_key (w_db w) (table p) (cols_of (OneCol c)) false key
        = Ok (row_get c r)).
Proof.
  intros results.
  destruct (Pivot_getitem_run p cols keep w) as (w' & Hrun & _).
  fold results in Hrun. rewrite Hrun. cbn [fst].
  split; [ | split ].
  - intros rs Hall.
    pose proof (sequence_all_ok _ _ Hall) as Hseq. rewrite Hseq.
    apply sequence_ok_length in Hseq.
    unfold results in Hseq. rewrite length_map in Hseq.
    f_equal.
    destruct (keys p) as [ | k [ | k' ks ] ];
      destruct rs as [ | r [ | r' rs' ] ]; try discriminate; reflexivity.
  - intros e He. now rewrite He.
  - intros c key r Hb Hc Hk Hrow.
    unfold per_key, cols_of. rewrite fetched_ok; try assumption.
    + rewrite Hrow. reflexivity.
    + unfold columns_ok. simpl. now rewrite Hc.
Qed.

Lemma Pivot_getitem_collapse_witness :
  fst (Pivot.__getitem__
         (mkPivot Example.sales [VStr "T121"; VStr "T122"])
         (Cols ["quantity"; "discount"]) false Example.w0)
  = Ok (VTuple [VTuple [VInt 4; VInt 5]; VTuple [VInt 10; VNone]])
  /\ per_key Example.sales_db Example.sales ["quantity"] false (VStr "T122")
     = Ok (VInt 10).
Proof.
  split.
  - apply (proj1 (Pivot_getitem_collapse
                    (mkPivot Example.sales [VStr "T121"; VStr "T122"])
                    (Cols ["quantity"; "discount"]) false Example.w0)
                 [VTuple [VInt 4; VInt 5]; VTuple [VInt 10; VNone]]).
    repeat constructor.
  - apply (proj2 (proj2 (Pivot_getitem_collapse
                    (mkPivot Example.sales [VStr "T121"; VStr "T122"])
                    (OneCol "quantity") false Example.w0))
                 "quantity" (VStr "T122")
                 [("transaction_id", VStr "T122"); ("quantity", VInt 10)]);
      reflexivity.
Defined.

(* ================================================================= *)
(** ** Missing rows and [len] *)

Lemma sequence_map_ok (f : value -> outcome value) (g : value -> value)
      (ks : list value) :
  (forall k, In k ks -> f k = Ok (g k)) ->
  sequence (map f ks) = Ok (map g ks).
Proof.
  induction ks as [ | k ks IH ]; intros H; [ reflexivity | ].
  simpl. rewrite (H k) by now left.
  rewrite IH; [ reflexivity | ].
  intros k' Hk'. apply H. now right.
Qed.

Lemma per_key_tuple (db : database) (t : Table) (cs : list string)
      (keep : bool) (key : value) :
  bound db t = true -> columns_ok db cs = true -> is_scalar key = true ->
  negb keep && Nat.eqb (List.length cs) 1 = false ->
  per_key db t cs keep key = Ok (row_or_none db t cs key).
Proof.
  intros Hb Hc Hk Hu. unfold per_key, row_or_none.
  rewrite fetched_ok by assumption. rewrite Hu.
  destruct (lookup db (pk t) key); reflexivity.
Qed.

Lemma per_key_single (db : database) (t : Table) (c : string) (key : value) :
  bound db t = true -> has_col db c = true -> is_scalar key = true ->
  per_key db t [c] false key
  = match lookup db (pk t) key with
    | Some r => Ok (row_get c r)
    | None => Raise (AttributeError "module")
    end.
Proof.
  intros Hb Hc Hk. unfold per_key.
  rewrite fetched_ok; try assumption.
  - destruct (lookup db (pk t) key); reflexivity.
  - unfold columns_ok. simpl. now rewrite Hc.
Qed.

(** Reading one column over keys of which one has no row ends in the
    exception of the first such key. *)
Lemma sequence_single_missing (db : database) (t : Table) (c : string)
      (ks : list value) (key : value) :
  bound db t = true -> has_col db c = true ->
  forallb is_scalar ks = true ->
  In key ks -> row_exists db (pk t) key = false ->
  sequence (map (per_key db t [c] false) ks) = Raise (AttributeError "module").
Proof.
  intros Hb Hc Hs Hin Hmiss.
  induction ks as [ | k ks IH ]; [ contradiction | ].
  simpl in Hs. apply andb_true_iff in Hs as [Hk Hs].
  simpl. rewrite per_key_single by assumption.
  destruct (lookup db (pk t) k) as [ r | ] eqn:El; [ | reflexivity ].
  destruct Hin as [ -> | Hin ].
  - rewrite row_exists_lookup, El in Hmiss. discriminate.
  - now rewrite IH.
Qed.

(** C4. On a bound table, reading one column (without [keep_tuples])
    over keys one of which has no row raises — the exception is the
    [AttributeError] of [self.table.module], the table object having no
    [module] attribute — while reading a column tuple of another length
    returns, with [None] standing for each key that has no row. *)
Theorem Pivot_getitem_missing_row (t : Table) (ks : list value) (key : value)
        (w : world) :
  bound (w_db w) t = true ->
  forallb is_scalar ks = true ->
  In key ks ->
  row_exists (w_db w) (pk t) key = false ->
  (forall c, has_col (w_db w) c = true ->
     fst (Pivot.__getitem__ (mkPivot t ks) (OneCol c) false w)
     = Raise (AttributeError "module"))
  /\ (forall cs, columns_ok (w_db w) cs = true -> List.length cs <> 1 ->
        fst (Pivot.__getitem__ (mkPivot t ks) (Cols cs) false w)
        = Ok (collapse (map (row_or_none (w_db w) t cs) ks))
        /\ row_or_none (w_db w) t cs key = VNone).
Proof.
  intros Hb Hs Hin Hmiss. split.
  - intros c Hc.
    destruct (Pivot_getitem_run (mkPivot t ks) (OneCol c) false w)
      as (w' & Hrun & _).
    rewrite Hrun. cbn [fst table keys cols_of].
    now rewrite (sequence_single_missing _ _ _ _ _ Hb Hc Hs Hin Hmiss).
  - intros cs Hc Hlen.
    destruct (Pivot_getitem_run (mkPivot t ks) (Cols cs) false w)
      as (w' & Hrun & _).
    rewrite Hrun. cbn [fst table keys cols_of].
    assert (Hu : negb false && Nat.eqb (List.length cs) 1 = false).
    { simpl. now apply Nat.eqb_neq. }
    rewrite (sequence_map_ok _ (row_or_none (w_db w) t cs)).
    + split; [ reflexivity | ].
      unfold row_or_none. rewrite row_exists_lookup in Hmiss.
      destruct (lookup _ _ key); [ discriminate | reflexivity ].
    + intros k Hk. apply per_key_tuple; try assumption.
      rewrite forallb_forall in Hs. now apply Hs.
Qed.

Lemma Pivot_getitem_missing_row_witness :
  fst (Pivot.__getitem__ (mkPivot Example.sales [VStr "T129"])
                         (OneCol "quantity") false Example.w0)
  = Raise (AttributeError "module")
  /\ fst (Pivot.__getitem__ (mkPivot Example.sales [VStr "T129"])
                            (Cols ["quantity"; "discount"]) false Example.w0)
     = Ok VNone.
Proof.
  assert (H := Pivot_getitem_missing_row Example.sales [VStr "T129"]
                 (VStr "T129") Example.w0
                 eq_refl eq_refl (or_introl eq_refl) eq_refl).
  split.
  - apply (proj1 H). reflexivity.
  - apply (proj2 H ["quantity"; "discount"]); [ reflexivity | discriminate ].
Defined.

(** C5. On a bound table [Pivot.__len__] returns 0 for a pivot without
    keys, 1 or 0 for a single key as its row exists or not, and 1 for
    every pivot of two or more keys, whichever of their rows exist: the
    probe hands back a tuple, never a list, so the counting branch is not
    taken. *)
Theorem Pivot_len_value (t : Table) (ks : list value) (w : world) :
  bound (w_db w) t = true ->
  forallb is_scalar ks = true ->
  fst (Pivot.__len__ (mkPivot t ks) w) = Ok (len_value (w_db w) t ks).
Proof.
  intros Hb Hs.
  unfold Pivot.__len__, bind.
  destruct (Pivot_getitem_run (mkPivot t ks) (OneCol (pk t)) true w)
    as (w' & Hrun & _).
  cbn [table keys cols_of] in *. rewrite Hrun.
  rewrite (sequence_map_ok _ (row_or_none (w_db w) t [pk t])).
  - unfold len_value, row_or_none.
    destruct ks as [ | k [ | k' ks' ] ]; cbn [map collapse]; try reflexivity.
    rewrite row_exists_lookup.
    destruct (lookup (w_db w) (pk t) k); reflexivity.
  - intros k Hk. apply per_key_tuple; try assumption; try reflexivity.
    + unfold columns_ok. simpl. now rewrite (bound_has_pk _ _ Hb).
    + rewrite forallb_forall in Hs. now apply Hs.
Qed.

Lemma Pivot_len_value_witness :
  fst (Pivot.__len__ (mkPivot Example.sales [VStr "T121"; VStr "T122"])
                     Example.w0) = Ok 1
  /\ fst (Pivot.__len__ (mkPivot Example.sales [VStr "T8"; VStr "T9"])
                        Example.w0) = Ok 1.
Proof.
  split.
  - apply (Pivot_len_value Example.sales [VStr "T121"; VStr "T122"] Example.w0);
      reflexivity.
  - apply (Pivot_len_value Example.sales [VStr "T8"; VStr "T9"] Example.w0);
      reflexivity.
Defined.

(* ================================================================= *)
(** ** [to_dict] *)

Section FoldFacts.
Variables K V : Type.
Variable eqb : K -> K -> bool.
Hypothesis eqb_eq : forall a b, eqb a b = true <-> a = b.
Variable f : K -> V.

Let step (acc : dict K V) (k : K) : dict K V := dict_set eqb k (f k) acc.
Let see (seen : list K) (k : K) : list K :=
  if existsb (eqb k) seen then seen else seen ++ [k].

Lemma eqb_swap (a b : K) : eqb a b = eqb b a.
Proof.
  destruct (eqb a b) eqn:E1, (eqb b a) eqn:E2; try reflexivity.
  - apply eqb_eq in E1. subst. now rewrite (eqb_same eqb eqb_eq) in E2.
  - apply eqb_eq in E2. subst. now rewrite (eqb_same eqb eqb_eq) in E1.
Qed.

Lemma dict_keys_set (k : K) (v : V) (d : dict K V) :
  dict_keys (dict_set eqb k v d) = see (dict_keys d) k.
Proof.
  unfold see.
  induction d as [ | [k' v'] d IH ]; simpl; [ reflexivity | ].
  rewrite (eqb_swap k k').
  destruct (eqb k' k); simpl; [ reflexivity | ].
  rewrite IH. now destruct (existsb (eqb k) (dict_keys d)).
Qed.

Lemma fold_set_keys (ks : list K) :
  forall acc, dict_keys (fold_left step ks acc)
              = fold_left see ks (dict_keys acc).
Proof.
  induction ks as [ | k ks IH ]; intros acc; simpl; [ reflexivity | ].
  rewrite IH. f_equal. unfold step. apply dict_keys_set.
Qed.

Lemma fold_set_get (ks : list K) (k : K) :
  forall acc, dict_get eqb k (fold_left step ks acc)
              = if existsb (eqb k) ks then Some (f k) else dict_get eqb k acc.
Proof.
  induction ks as [ | k0 ks IH ]; intros acc; simpl; [ reflexivity | ].
  rewrite IH. unfold step.
  destruct (existsb (eqb k) ks); [ now rewrite orb_true_r | ].
  rewrite orb_false_r.
  destruct (eqb k k0) eqn:E.
  - apply eqb_eq in E. subst. now rewrite dict_get_set_same.
  - apply dict_get_set_other; [ exact eqb_eq | ].
    intros ->. now rewrite (eqb_same eqb eqb_eq) in E.
Qed.

Lemma fold_see_prefix (ks : list K) :
  forall seen, exists more, fold_left see ks seen = seen ++ more.
Proof.
  induction ks as [ | k ks IH ]; intros seen; simpl.
  - exists []. now rewrite app_nil_r.
  - unfold see at 2. destruct (existsb (eqb k) seen); [ apply IH | ].
    destruct (IH (seen ++ [k])) as [more ->].
    exists (k :: more). now rewrite <- app_assoc.
Qed.
End FoldFacts.

Lemma has_col_self (db : database) :
  forallb (has_col db) (db_cols db) = true.
Proof.
  apply forallb_forall. intros c Hc. unfold has_col.
  apply existsb_exists. exists c. split; [ exact Hc | apply String.eqb_refl ].
Qed.

Lemma has_col_In (db : database) (c : string) :
  has_col db c = true <-> In c (db_cols db).
Proof.
  unfold has_col. rewrite existsb_exists. split.
  - intros (c' & Hin & E). apply String.eqb_eq in E. now subst.
  - intros Hin. exists c. split; [ exact Hin | apply String.eqb_refl ].
Qed.

(** A well-formed row fetch succeeds and leaves the matching rows, with
    all their columns, on the cursor. *)
Lemma exec_select_all_ok (db : database) (t : Table) (key : value) :
  bound db t = true -> is_scalar key = true ->
  exec db (SSelectAll (name t) (pk t)) [key]
  = inr (db, mkCursor (map (project (db_cols db))
                           (filter (sql_matches (pk t) key) (db_rows db)))
                      (db_cols db)).
Proof.
  intros Hb Hk. unfold exec, select.
  rewrite (bound_name _ _ Hb), (bound_has_pk _ _ Hb), has_col_self.
  pose proof (bound_has_pk _ _ Hb) as Hpk. apply has_col_In in Hpk.
  destruct (db_cols db) as [ | c cs ]; [ contradiction | ].
  simpl forallb. rewrite Hk. reflexivity.
Qed.

Lemma sget_not_in (c : string) (d : sdict) :
  ~ In c (dict_keys d) -> sget c d = None.
Proof.
  induction d as [ | [c' v] d IH ]; simpl; [ reflexivity | ].
  intros H. destruct (String.eqb c' c) eqn:E.
  - apply String.eqb_eq in E. subst. exfalso. apply H. now left.
  - apply IH. intros Hin. apply H. now right.
Qed.

(** [dict(zip(cols, row))] over distinct column names keeps every
    pair. *)
Lemma dict_of_pairs_nodup (ps : list (string * value)) :
  forall acc : sdict,
    NoDup (dict_keys acc ++ map fst ps) ->
    fold_left (fun d kv => dict_set String.eqb (fst kv) (snd kv) d) ps acc
    = acc ++ ps.
Proof.
  induction ps as [ | [c v] ps IH ]; intros acc Hnd; simpl.
  - now rewrite app_nil_r.
  - rewrite (dict_set_fresh String.eqb c v acc).
    + rewrite IH.
      * now rewrite <- app_assoc.
      * unfold dict_keys. rewrite map_app. simpl.
        rewrite <- app_assoc. exact Hnd.
    + apply sget_not_in. intros Hin.
      apply NoDup_remove_2 in Hnd. apply Hnd.
      apply in_or_app. now left.
Qed.

Lemma filter_not_in (c : string) (d : sdict) :
  ~ In c (dict_keys d) ->
  filter (fun cv => negb (String.eqb (fst cv) c)) d = d.
Proof.
  induction d as [ | [c' v] d IH ]; simpl; [ reflexivity | ].
  intros H. destruct (String.eqb c' c) eqn:E; simpl.
  - apply String.eqb_eq in E. subst. exfalso. apply H. now left.
  - f_equal. apply IH. intros Hin. apply H. now right.
Qed.

(** [del d[c]] on distinct column names drops exactly the entry of
    [c]. *)
Lemma dict_del_nodup (c : string) (d : sdict) :
  NoDup (dict_keys d) -> In c (dict_keys d) ->
  dict_del String.eqb c d
  = Some (filter (fun cv => negb (String.eqb (fst cv) c)) d).
Proof.
  induction d as [ | [c' v] d IH ]; simpl; [ contradiction | ].
  intros Hnd Hin. inversion Hnd as [ | ? ? Hc' Hnd' ]; subst.
  destruct (String.eqb c' c) eqn:E; simpl.
  - apply String.eqb_eq in E. subst. now rewrite filter_not_in.
  - destruct Hin as [ -> | Hin ]; [ now rewrite String.eqb_refl in E | ].
    now rewrite IH.
Qed.

Lemma dict_keys_combine_project (cs : list string) (r : row) :
  dict_keys (combine cs (project cs r)) = cs.
Proof.
  unfold dict_keys, project.
  induction cs as [ | c cs IH ]; simpl; [ reflexivity | now rewrite IH ].
Qed.

Lemma find_hd_filter {A} (p : A -> bool) (l : list A) :
  find p l = hd_error (filter p l).
Proof.
  induction l as [ | x l IH ]; simpl; [ reflexivity | ].
  destruct (p x); [ reflexivity | exact IH ].
Qed.

(** The mapping [to_dict] builds from a fetched row. *)
Lemma fetched_row_mapping (db : database) (t : Table) (r : row) :
  bound db t = true -> NoDup (db_cols db) ->
  dict_del String.eqb (pk t)
           (dict_of_pairs String.eqb
                          (combine (db_cols db) (project (db_cols db) r)))
  = Some (filter (fun cv => negb (String.eqb (fst cv) (pk t)))
                 (combine (db_cols db) (project (db_cols db) r))).
Proof.
  intros Hb Hnd. unfold dict_of_pairs.
  rewrite (dict_of_pairs_nodup _ []).
  - simpl. apply dict_del_nodup; rewrite dict_keys_combine_project.
    + exact Hnd.
    + apply has_col_In, (bound_has_pk _ _ Hb).
  - simpl. fold (dict_keys (combine (db_cols db) (project (db_cols db) r))).
    now rewrite dict_keys_combine_project.
Qed.

(** The loop of [to_dict] binds every key, in order, to the mapping of
    its row. *)
Lemma to_dict_loop_spec (db : database) (t : Table) (ks : list value) :
  bound db t = true -> NoDup (db_cols db) ->
  forallb is_scalar ks = true ->
  forall (rows : dict value sdict) (w : world),
    w_db w = db ->
    exists w',
      Pivot.to_dict_loop t ks rows w
      = (Ok (fold_left (fun acc k => dict_set value_eqb k (row_mapping db t k) acc)
                       ks rows), w')
      /\ w_db w' = db.
Proof.
  intros Hb Hnd.
  induction ks as [ | key rest IH ]; intros Hs rows w Hw.
  - exists w. now split.
  - simpl in Hs. apply andb_true_iff in Hs as [Hk Hs].
    cbn [Pivot.to_dict_loop fold_left].
    unfold bind at 1, execute at 1.
    rewrite Hw, exec_select_all_ok by assumption.
    unfold bind at 1, fetchone at 1. cbn [w_cur cur_rows cur_desc].
    unfold row_mapping, lookup. rewrite find_hd_filter.
    destruct (filter (sql_matches (pk t) key) (db_rows db)) as [ | r rs ];
      cbn [map hd_error].
    + unfold bind at 1, ret at 1. apply IH; [ exact Hs | reflexivity ].
    + unfold bind at 1, bind at 1, description at 1.
      cbn [w_cur cur_desc].
      rewrite fetched_row_mapping by assumption.
      unfold ret at 1. apply IH; [ exact Hs | reflexivity ].
Qed.

(** C6, as the code has it: two keys, both naming the same row, and
    [keep_key] false, yet the column mapping comes back unwrapped. *)
Lemma to_dict_repeated_key_unwrapped :
  List.length (keys (mkPivot Example.sales [VStr "T121"; VStr "T121"])) = 2
  /\ fst (Pivot.to_dict (mkPivot Example.sales [VStr "T121"; VStr "T121"])
                        false Example.w0)
     = Ok (Columns [("quantity", VInt 4); ("discount", VInt 5)]).
Proof. split; reflexivity. Qed.

(** C6, amended. On a bound table with distinct column names [to_dict]
    maps every key of the pivot to the column mapping of its row, the
    primary key left out, and to the empty mapping when the row is
    missing.  It returns the one mapping itself exactly when [keep_key]
    is false and the keys, repetitions dropped, are a single key; in every
    other case it returns the mapping by key, whose keys are the pivot's
    keys without repetitions. *)
Theorem Pivot_to_dict_shape (t : Table) (ks : list value) (keep_key : bool)
        (w : world) :
  bound (w_db w) t = true ->
  NoDup (db_cols (w_db w)) ->
  forallb is_scalar ks = true ->
  exists m : dict value sdict,
    dict_keys m = distinct ks
    /\ (forall k, In k ks ->
          dict_get value_eqb k m = Some (row_mapping (w_db w) t k))
    /\ fst (Pivot.to_dict (mkPivot t ks) keep_key w)
       = Ok (if negb keep_key && Nat.eqb (List.length (distinct ks)) 1
             then Columns (row_mapping (w_db w) t (hd VNone ks))
             else ByKey m).
Proof.
  intros Hb Hnd Hs.
  set (f := row_mapping (w_db w) t).
  set (m := fold_left (fun acc k => dict_set value_eqb k (f k) acc) ks []).
  assert (Hkeys : dict_keys m = distinct ks).
  { unfold m. now rewrite (fold_set_keys value sdict value_eqb value_eqb_eq f ks []). }
  assert (Hget : forall k, In k ks -> dict_get value_eqb k m = Some (f k)).
  { intros k Hin. unfold m.
    rewrite (fold_set_get value sdict value_eqb value_eqb_eq f ks k []).
    replace (existsb (value_eqb k) ks) with true; [ reflexivity | ].
    symmetry. apply existsb_exists. exists k.
    split; [ exact Hin | apply value_eqb_refl ]. }
  exists m. split; [ exact Hkeys | split; [ exact Hget | ] ].
  unfold Pivot.to_dict, bind. cbn [table keys].
  destruct (to_dict_loop_spec (w_db w) t ks Hb Hnd Hs [] w eq_refl)
    as (w' & Hrun & _).
  rewrite Hrun. fold f. fold m.
  assert (Hlen : List.length m = List.length (distinct ks)).
  { rewrite <- Hkeys. unfold dict_keys. now rewrite length_map. }
  rewrite Hlen.
  destruct (negb keep_key && Nat.eqb (List.length (distinct ks)) 1) eqn:Ec;
    [ | reflexivity ].
  apply andb_true_iff in Ec as [_ Ec]. apply Nat.eqb_eq in Ec.
  rewrite <- Hlen in Ec.
  destruct m as [ | [k d] [ | ? ? ] ] eqn:Em; try discriminate.
  cbn [rev app fst]. unfold ret. cbn [fst]. do 2 f_equal.
  destruct ks as [ | k0 ks' ]; [ discriminate | ].
  cbn [hd].
  assert (Hk0 : k = k0).
  { unfold distinct in Hkeys. simpl in Hkeys.
    destruct (fold_see_prefix value value_eqb ks' [k0]) as [more Hmore].
    rewrite Hmore in Hkeys. simpl in Hkeys. now injection Hkeys. }
  subst k0. specialize (Hget k (or_introl eq_refl)).
  simpl in Hget. rewrite value_eqb_refl in Hget. now injection Hget.
Qed.

Lemma Pivot_to_dict_shape_witness :
  exists m : dict value sdict,
    dict_keys m = [VStr "T121"; VStr "T9"]
    /\ fst (Pivot.to_dict (mkPivot Example.sales
                                   [VStr "T121"; VStr "T9"; VStr "T121"])
                          false Example.w0)
       = Ok (ByKey m).
Proof.
  assert (Hnd : NoDup (db_cols (w_db Example.w0))).
  { simpl. repeat constructor; simpl; intuition discriminate. }
  destruct (Pivot_to_dict_shape Example.sales
              [VStr "T121"; VStr "T9"; VStr "T121"] false Example.w0
              eq_refl Hnd eq_refl) as (m & Hkeys & _ & Hrun).
  exists m. split; [ exact Hkeys | exact Hrun ].
Defined.

(* ================================================================= *)
(** ** The statement text *)

Section SqlText.
Local Open Scope string_scope.

Lemma append_empty_r (s : string) : s ++ EmptyString = s.
Proof. induction s as [ | a s IH ]; simpl; [ reflexivity | now rewrite IH ]. Qed.

Lemma append_assoc' (s t u : string) : (s ++ t) ++ u = s ++ (t ++ u).
Proof. induction s as [ | a s IH ]; simpl; [ reflexivity | now rewrite IH ]. Qed.

Lemma length_append' (s t : string) :
  String.length (s ++ t) = String.length s + String.length t.
Proof. induction s as [ | a s IH ]; simpl; [ reflexivity | now rewrite IH ]. Qed.

Lemma substring_prefix (s t : string) :
  substring 0 (String.length s) (s ++ t) = s.
Proof.
  induction s as [ | a s IH ]; simpl.
  - now destruct t.
  - now rewrite IH.
Qed.

(** Slicing off the last character undoes appending one. *)
Lemma drop_last_snoc (s : string) (a : ascii) :
  drop_last (s ++ String a EmptyString) = s.
Proof.
  unfold drop_last. rewrite length_append'. simpl.
  replace (String.length s + 1 - 1) with (String.length s) by lia.
  apply substring_prefix.
Qed.

Lemma concat_empty_cons (x : string) (l : list string) :
  String.concat EmptyString (x :: l) = x ++ String.concat EmptyString l.
Proof.
  destruct l as [ | y l ]; simpl; [ now rewrite append_empty_r | reflexivity ].
Qed.

(** Joining items that each end in a comma, then dropping the final
    comma, is joining the items with commas. *)
Lemma join_trailing (f : string -> string) (c : string) (cs : list string) :
  join_map (fun x => f x ++ ",") (c :: cs)
  = String.concat "," (map f (c :: cs)) ++ ",".
Proof.
  unfold join_map. revert c.
  induction cs as [ | c' cs IH ]; intros c.
  - simpl. reflexivity.
  - change (map (fun x => f x ++ ",") (c :: c' :: cs))
      with ((f c ++ ",") :: map (fun x => f x ++ ",") (c' :: cs)).
    rewrite concat_empty_cons, IH.
    change (String.concat "," (map f (c :: c' :: cs)))
      with (f c ++ "," ++ String.concat "," (map f (c' :: cs))).
    now rewrite !append_assoc'.
Qed.

Lemma drop_last_join (f : string -> string) (c : string) (cs : list string) :
  drop_last (join_map (fun x => f x ++ ",") (c :: cs))
  = String.concat "," (map f (c :: cs)).
Proof. rewrite join_trailing. apply (drop_last_snoc _ ","%char). Qed.

Lemma times_join (n : nat) :
  drop_last (times "%s," (S n)) = String.concat "," (repeat "%s" (S n)).
Proof.
  unfold times.
  change (repeat "%s," (S n))
    with (repeat ((fun x : string => (fun _ : string => "%s") x ++ ",") EmptyString)
                 (S n)).
  rewrite <- map_repeat.
  change (String.concat EmptyString (map ?g ?l)) with (join_map g l).
  cbn [repeat]. rewrite drop_last_join.
  change (EmptyString :: repeat EmptyString n) with (repeat EmptyString (S n)).
  now rewrite map_repeat.
Qed.

(** The text of an INSERT over at least one column: the columns joined
    by commas, and as many placeholders. *)
Lemma render_insert (tbl : string) (c : string) (cs : list string) :
  render (SInsert tbl (c :: cs))
  = "INSERT INTO " ++ tbl ++ " (" ++ String.concat "," (c :: cs)
    ++ ") VALUES ("
    ++ String.concat "," (repeat "%s" (List.length (c :: cs))) ++ ")".
Proof.
  unfold render.
  change (fun col : string => col ++ ",")
    with (fun col : string => (fun x : string => x) col ++ ",").
  rewrite drop_last_join, map_id.
  cbn [List.length]. now rewrite times_join.
Qed.
End SqlText.

(* ================================================================= *)
(** ** Row writes: [Table.__setitem__] *)

Lemma existsb_filter {A} (p : A -> bool) (l : list A) :
  existsb p l = match filter p l with [] => false | _ :: _ => true end.
Proof.
  induction l as [ | x l IH ]; simpl; [ reflexivity | ].
  destruct (p x); simpl; [ reflexivity | exact IH ].
Qed.

Lemma nth_error_replace_same {A} (l : list A) (n : nat) (x y : A) :
  nth_error l n = Some y -> nth_error (replace_nth n x l) n = Some x.
Proof.
  revert n. induction l as [ | a l IH ]; intros [ | n ]; simpl;
    try discriminate; [ reflexivity | apply IH ].
Qed.

Lemma nth_error_replace_other {A} (l : list A) (n m : nat) (x : A) :
  m <> n -> nth_error (replace_nth n x l) m = nth_error l m.
Proof.
  revert n m. induction l as [ | a l IH ]; intros [ | n ] [ | m ] H; simpl;
    try reflexivity; try congruence.
  apply IH. congruence.
Qed.

(** The truth value of [self[key]] is one probe: it tells whether the row
    exists and touches nothing but the cursor and the log. *)
Lemma truth_probe (t : Table) (key : value) (w : world) :
  bound (w_db w) t = true -> is_scalar key = true ->
  exists cur,
    Pivot.truth (Table.__getitem__ t key) w
    = (Ok (row_exists (w_db w) (pk t) key),
       mkWorld (w_db w) (w_committed w) cur (w_store w)
               (w_log w ++ [probe_event t key])).
Proof.
  intros Hb Hk.
  assert (Hp : Table.__getitem__ t key = mkPivot t [key]).
  { unfold Table.__getitem__. destruct key; try discriminate; reflexivity. }
  rewrite Hp.
  assert (Hc : columns_ok (w_db w) [pk t] = true).
  { unfold columns_ok. simpl. now rewrite (bound_has_pk _ _ Hb). }
  unfold Pivot.truth, Pivot.__len__, Pivot.__getitem__.
  cbn [table keys Pivot.getitem_loop].
  unfold bind, execute. rewrite exec_select_ok by assumption.
  unfold fetchone. cbn [w_cur cur_rows cur_desc w_db w_committed w_store w_log].
  unfold row_exists. rewrite existsb_filter.
  destruct (filter (sql_matches (pk t) key) (db_rows (w_db w))) as [ | r rs ];
    cbn; eexists; reflexivity.
Qed.

(** A row write is the probe followed by the chosen statement and, when
    the driver accepts it, a commit.  On the insert path the caller's
    dictionary has been rebound before the statement is built. *)
Lemma Table_setitem_run (t : Table) (key : value) (ref : nat) (d : sdict)
      (w : world) :
  bound (w_db w) t = true -> is_scalar key = true ->
  nth_error (w_store w) ref = Some d ->
  let st' := if updates (w_db w) t key then w_store w
             else replace_nth ref (sset (pk t) key d) (w_store w) in
  let ev := write_event (w_db w) t key d in
  let log' := w_log w ++ [probe_event t key; ev] in
  exists cur,
    Table.__setitem__ t key ref w
    = match verdict (w_db w) ev with
      | inl e =>
          (Raise (DriverError e),
           mkWorld (w_db w) (w_committed w) cur st' log')
      | inr (db', cur') =>
          (Ok tt, mkWorld db' (db_rows db') cur' st' (log' ++ [EvCommit]))
      end.
Proof.
  intros Hb Hk Hd st' ev log'.
  destruct (truth_probe t key w Hb Hk) as (cur & Hprobe).
  exists cur.
  unfold Table.__setitem__, bind at 1. rewrite Hprobe.
  subst st' ev log'. unfold write_event, updates.
  destruct (row_exists (w_db w) (pk t) key && negb (insert_only t)).
  - unfold bind at 1, load at 1. cbn [w_store]. rewrite Hd.
    unfold bind, execute, commit, update_event, verdict.
    cbn [w_db w_committed w_cur w_store w_log].
    destruct (exec _ _ _) as [ e | [db' cur'] ].
    + now rewrite <- app_assoc.
    + cbn [w_db w_committed w_cur w_store w_log].
      now rewrite <- !app_assoc.
  - unfold bind at 1, load at 1. cbn [w_store]. rewrite Hd.
    unfold bind at 1, store at 1. cbn [w_db w_committed w_cur w_store w_log].
    unfold bind at 1, load at 1. cbn [w_store].
    rewrite (nth_error_replace_same _ _ _ _ Hd).
    unfold bind, execute, commit, insert_event, verdict.
    cbn [w_db w_committed w_cur w_store w_log].
    destruct (exec _ _ _) as [ e | [db' cur'] ].
    + now rewrite <- app_assoc.
    + cbn [w_db w_committed w_cur w_store w_log].
      now rewrite <- !app_assoc.
Qed.

Lemma issued_app (w w' : world) (evs : list event) :
  w_log w' = w_log w ++ evs -> issued w w' = evs.
Proof.
  unfold issued. intros ->.
  rewrite skipn_app, skipn_all, Nat.sub_diag. reflexivity.
Qed.

Lemma sget_in_keys (c : string) (v : value) (d : sdict) :
  sget c d = Some v -> In c (dict_keys d).
Proof.
  induction d as [ | [c' v'] d IH ]; simpl; [ discriminate | ].
  destruct (String.eqb c' c) eqn:E.
  - apply String.eqb_eq in E. now left.
  - intros H. right. now apply IH.
Qed.

Lemma combine_keys_values (d : sdict) :
  combine (dict_keys d) (dict_values d) = d.
Proof.
  induction d as [ | [c v] d IH ]; simpl; [ reflexivity | now rewrite IH ].
Qed.

(** C1. [Table.__setitem__] on a bound table first issues the existence
    probe for the key.  When the probe finds the row and the table is not
    insert-only, the next statement is the UPDATE of exactly the columns
    of the mapping, bound to their values followed by the key; otherwise
    it is an INSERT whose columns include the primary key.  The call
    returns exactly when the driver accepts that statement, and then a
    commit has been issued last and the committed table is the written
    one; a refusal of the driver is raised with no commit. *)
Theorem Table_setitem_statements (t : Table) (key : value) (ref : nat)
        (d : sdict) (w : world) :
  bound (w_db w) t = true ->
  is_scalar key = true ->
  nth_error (w_store w) ref = Some d ->
  let run := Table.__setitem__ t key ref w in
  let committed :=
    match fst run with Ok _ => [EvCommit] | Raise _ => [] end in
  (row_exists (w_db w) (pk t) key && negb (insert_only t) = true ->
     issued w (snd run)
     = EvExecute (SSelect [pk t] (name t) (pk t)) [key]
       :: EvExecute (SUpdate (name t) (dict_keys d) (pk t))
                    (dict_values d ++ [key])
       :: committed)
  /\ (row_exists (w_db w) (pk t) key && negb (insert_only t) = false ->
        exists cols params,
          issued w (snd run)
          = EvExecute (SSelect [pk t] (name t) (pk t)) [key]
            :: EvExecute (SInsert (name t) cols) params
            :: committed
          /\ In (pk t) cols)
  /\ match verdict (w_db w) (write_event (w_db w) t key d) with
     | inr (db', _) =>
         fst run = Ok tt
         /\ w_db (snd run) = db'
         /\ w_committed (snd run) = db_rows db'
     | inl e =>
         fst run = Raise (DriverError e)
         /\ w_db (snd run) = w_db w
         /\ w_committed (snd run) = w_committed w
     end.
Proof.
  intros Hb Hk Hd run committed.
  destruct (Table_setitem_run t key ref d w Hb Hk Hd) as (cur & Hrun).
  subst committed run. rewrite Hrun. clear Hrun.
  unfold write_event, updates.
  split; [ | split ].
  - intros Hu. rewrite Hu.
    destruct (verdict _ _) as [ e | [db' cur'] ]; cbn [fst snd];
      apply issued_app; cbn [w_log]; [ reflexivity | ].
    now rewrite <- app_assoc.
  - intros Hu. rewrite Hu.
    exists (dict_keys (sset (pk t) key d)), (dict_values (sset (pk t) key d)).
    split.
    + destruct (verdict _ _) as [ e | [db' cur'] ]; cbn [fst snd];
        apply issued_app; cbn [w_log]; [ reflexivity | ].
      now rewrite <- app_assoc.
    + apply (sget_in_keys _ key), sget_sset_same.
  - destruct (verdict _ _) as [ e | [db' cur'] ]; cbn [fst snd w_db w_committed];
      repeat split.
Qed.

Lemma Table_setitem_statements_witness :
  issued Example.w0 (snd (Table.__setitem__ Example.sales (VStr "T121") 0
                                            Example.w0))
  = [ EvExecute (SSelect ["transaction_id"] "sales" "transaction_id")
                [VStr "T121"];
      EvExecute (SUpdate "sales" ["quantity"] "transaction_id")
                [VInt 7; VStr "T121"];
      EvCommit ].
Proof.
  apply (proj1 (Table_setitem_statements Example.sales (VStr "T121") 0
                  [("quantity", VInt 7)] Example.w0 eq_refl eq_refl eq_refl)).
  reflexivity.
Defined.

(** C7, as the code has it: the INSERT for [{"quantity": 7}] under key
    ["T9"] names [quantity] first and the primary key last. *)
Lemma insert_names_primary_key_last :
  issued Example.w0 (snd (Table.__setitem__ Example.sales (VStr "T9") 0
                                            Example.w0))
  = [ EvExecute (SSelect ["transaction_id"] "sales" "transaction_id")
                [VStr "T9"];
      EvExecute (SInsert "sales" ["quantity"; "transaction_id"])
                [VInt 7; VStr "T9"];
      EvCommit ]
  /\ render (SInsert "sales" ["quantity"; "transaction_id"])
     = "INSERT INTO sales (quantity,transaction_id) VALUES (%s,%s)"
  /\ nth_error (issued Example.w0
                  (snd (Table.__setitem__ Example.sales (VStr "T9") 0
                                          Example.w0))) 1
     <> Some (EvExecute (SInsert "sales" ["transaction_id"; "quantity"])
                        [VStr "T9"; VInt 7]).
Proof. repeat split. cbv. discriminate. Qed.

(** C7, amended. On the insert path the statement issued after the probe
    is an INSERT over the columns of the mapping once the key has been
    stored under the primary-key column, in the mapping's order: the
    given columns followed by the primary key when the mapping did not
    have it (where it already stood otherwise).  Its text lists those
    columns separated by commas and as many [%s] placeholders, and the
    parameters are the mapping's values in the same order, the key bound
    to the primary-key column. *)
Theorem Table_setitem_insert_statement (t : Table) (key : value) (ref : nat)
        (d : sdict) (w : world) :
  bound (w_db w) t = true ->
  is_scalar key = true ->
  nth_error (w_store w) ref = Some d ->
  row_exists (w_db w) (pk t) key && negb (insert_only t) = false ->
  let cols := dict_keys (sset (pk t) key d) in
  let params := dict_values (sset (pk t) key d) in
  nth_error (issued w (snd (Table.__setitem__ t key ref w))) 1
  = Some (EvExecute (SInsert (name t) cols) params)
  /\ render (SInsert (name t) cols)
     = ("INSERT INTO " ++ name t ++ " (" ++ String.concat "," cols
        ++ ") VALUES ("
        ++ String.concat "," (repeat "%s" (List.length cols)) ++ ")")%string
  /\ List.length params = List.length cols
  /\ combine cols params = sset (pk t) key d
  /\ sget (pk t) (combine cols params) = Some key
  /\ (sget (pk t) d = None ->
        cols = dict_keys d ++ [pk t] /\ params = dict_values d ++ [key]).
Proof.
  intros Hb Hk Hd Hu cols params.
  destruct (Table_setitem_run t key ref d w Hb Hk Hd) as (cur & Hrun).
  rewrite Hrun. clear Hrun.
  unfold write_event, updates. rewrite Hu.
  split; [ | split; [ | split; [ | split; [ | split ] ] ] ].
  - destruct (verdict _ _) as [ e | [db' cur'] ]; cbn [snd].
    + rewrite (issued_app w _ [probe_event t key; insert_event t key d]);
        reflexivity.
    + rewrite (issued_app w _ [probe_event t key; insert_event t key d; EvCommit]);
        [ reflexivity | ].
      cbn [w_log]. now rewrite <- app_assoc.
  - subst cols.
    pose proof (dict_set_length_ge String.eqb (pk t) key d) as Hlen.
    destruct (sset (pk t) key d) as [ | [c v] d' ] eqn:Ed;
      [ unfold sset in Ed; rewrite Ed in Hlen; simpl in Hlen; lia | ].
    cbn [dict_keys map fst]. apply render_insert.
  - subst cols params. unfold dict_keys, dict_values. now rewrite !length_map.
  - apply combine_keys_values.
  - subst cols params. rewrite combine_keys_values. apply sget_sset_same.
  - intros Hfresh. subst cols params. unfold sset.
    rewrite (dict_set_fresh String.eqb (pk t) key d Hfresh).
    unfold dict_keys, dict_values. now rewrite !map_app.
Qed.

Lemma Table_setitem_insert_statement_witness :
  nth_error (issued Example.w0
               (snd (Table.__setitem__ Example.sales (VStr "T9") 0 Example.w0)))
            1
  = Some (EvExecute (SInsert "sales" ["quantity"; "transaction_id"])
                    [VInt 7; VStr "T9"]).
Proof.
  apply (proj1 (Table_setitem_insert_statement Example.sales (VStr "T9") 0
                  [("quantity", VInt 7)] Example.w0
                  eq_refl eq_refl eq_refl eq_refl)).
Defined.

(** C9, as the code has it: an insert under key ["T200"] with the mapping
    [{"transaction_id": "T200"}] leaves the caller's mapping as it
    was. *)
Lemma insert_leaves_mapping_with_key :
  nth_error (issued Example.w0
               (snd (Table.__setitem__ Example.sales (VStr "T200") 1
                                       Example.w0))) 1
  = Some (EvExecute (SInsert "sales" ["transaction_id"]) [VStr "T200"])
  /\ nth_error (w_store (snd (Table.__setitem__ Example.sales (VStr "T200") 1
                                                Example.w0))) 1
     = nth_error (w_store Example.w0) 1.
Proof. split; reflexivity. Qed.

(** C9, amended. On the insert path the caller's dictionary itself is
    rebound: after the call it holds the key under the primary-key
    column, every other entry as before, and no other object of the
    store has changed.  The dictionary differs from what it was exactly
    when it did not already hold the key under that column. *)
Theorem Table_setitem_rebinds_argument (t : Table) (key : value) (ref : nat)
        (d : sdict) (w : world) :
  bound (w_db w) t = true ->
  is_scalar key = true ->
  nth_error (w_store w) ref = Some d ->
  row_exists (w_db w) (pk t) key && negb (insert_only t) = false ->
  let st' := w_store (snd (Table.__setitem__ t key ref w)) in
  nth_error st' ref = Some (sset (pk t) key d)
  /\ sget (pk t) (sset (pk t) key d) = Some key
  /\ (forall c, c <> pk t -> sget c (sset (pk t) key d) = sget c d)
  /\ (sset (pk t) key d = d <-> sget (pk t) d = Some key)
  /\ (forall r, r <> ref -> nth_error st' r = nth_error (w_store w) r).
Proof.
  intros Hb Hk Hd Hu st'.
  destruct (Table_setitem_run t key ref d w Hb Hk Hd) as (cur & Hrun).
  subst st'. rewrite Hrun. clear Hrun. unfold updates. rewrite Hu.
  match goal with
  | |- context [w_store (snd ?m)] =>
      assert (Hs : w_store (snd m)
                   = replace_nth ref (sset (pk t) key d) (w_store w))
  end.
  { destruct (verdict _ _) as [ e | [db' cur'] ]; reflexivity. }
  rewrite Hs.
  split; [ | split; [ | split; [ | split ] ] ].
  - apply (nth_error_replace_same _ _ _ _ Hd).
  - apply sget_sset_same.
  - intros c Hc. now apply sget_sset_other.
  - split.
    + intros E. rewrite <- E. apply sget_sset_same.
    + apply (dict_set_same_value String.eqb).
  - intros r Hr. now apply nth_error_replace_other.
Qed.

Lemma Table_setitem_rebinds_argument_witness :
  nth_error (w_store (snd (Table.__setitem__ Example.sales (VStr "T9") 0
                                             Example.w0))) 0
  = Some [("quantity", VInt 7); ("transaction_id", VStr "T9")].
Proof.
  apply (proj1 (Table_setitem_rebinds_argument Example.sales (VStr "T9") 0
                  [("quantity", VInt 7)] Example.w0
                  eq_refl eq_refl eq_refl eq_refl)).
Defined.

(* ================================================================= *)
(** ** Column writes: [Pivot.__setitem__] *)

(** An accepted UPDATE rewrites the matching rows in place. *)
Lemma exec_update_rows (db db' : database) (tbl : string) (cs : list string)
      (wc : string) (ps : list value) (cur : cursor) :
  exec db (SUpdate tbl cs wc) ps = inr (db', cur) ->
  db' = set_rows db (update_where wc (last ps VNone) cs (removelast ps)
                                  (db_rows db)).
Proof.
  unfold exec, update.
  destruct (negb (String.eqb tbl (db_name db))); [ discriminate | ].
  destruct cs as [ | c0 cs0 ]; [ discriminate | ].
  destruct (negb (forallb is_scalar ps)); [ discriminate | ].
  destruct (negb (Nat.eqb _ _)); [ discriminate | ].
  destruct (negb (has_col db wc && _)); [ discriminate | ].
  destruct (_ && _); [ discriminate | ].
  intros H. now injection H.
Qed.

Lemma row_get_assign (wc : string) (cs : list string) (vs : list value)
      (r : row) :
  existsb (String.eqb wc) cs = false ->
  row_get wc (assign cs vs r) = row_get wc r.
Proof.
  unfold assign. revert vs r.
  induction cs as [ | c cs IH ]; intros vs r Hnot; [ reflexivity | ].
  simpl in Hnot. apply orb_false_iff in Hnot as [Hc Hcs].
  destruct vs as [ | v vs ]; [ reflexivity | ].
  simpl. rewrite IH by exact Hcs.
  unfold row_get. rewrite sget_sset_other; [ reflexivity | ].
  apply String.eqb_neq in Hc. exact Hc.
Qed.

Lemma matches_assign (wc : string) (k : value) (cs : list string)
      (vs : list value) (r : row) :
  existsb (String.eqb wc) cs = false ->
  sql_matches wc k (assign cs vs r) = sql_matches wc k r.
Proof.
  intros H. unfold sql_matches. now rewrite row_get_assign.
Qed.

Lemma matches_update_where (wc : string) (k key : value) (cs : list string)
      (vs : list value) (rows : list row) :
  existsb (String.eqb wc) cs = false ->
  map (sql_matches wc k) (update_where wc key cs vs rows)
  = map (sql_matches wc k) rows.
Proof.
  intros H. unfold update_where. rewrite map_map.
  apply map_ext. intros r.
  destruct (sql_matches wc key r); [ now apply matches_assign | reflexivity ].
Qed.

Lemma existsb_map {A B} (p : B -> bool) (f : A -> B) (l : list A) :
  existsb p (map f l) = existsb (fun x => p (f x)) l.
Proof.
  induction l as [ | x l IH ]; simpl; [ reflexivity | now rewrite IH ].
Qed.

Lemma existsb_as_map {A} (p : A -> bool) (l : list A) :
  existsb p l = existsb (fun b => b) (map p l).
Proof. now rewrite existsb_map. Qed.

(** An UPDATE that does not assign the key column keeps, for every key,
    whether a row exists. *)
Lemma row_exists_update_where (db : database) (wc : string) (k key : value)
      (cs : list string) (vs : list value) :
  existsb (String.eqb wc) cs = false ->
  row_exists (set_rows db (update_where wc key cs vs (db_rows db))) wc k
  = row_exists db wc k.
Proof.
  intros H. unfold row_exists. cbn [db_rows set_rows].
  rewrite (existsb_as_map _ (update_where _ _ _ _ _)), matches_update_where
    by exact H.
  symmetry. apply existsb_as_map.
Qed.

(** An UPDATE for a key that has no row changes no row. *)
Lemma update_where_missing (wc : string) (key : value) (cs : list string)
      (vs : list value) (rows : list row) :
  existsb (sql_matches wc key) rows = false ->
  update_where wc key cs vs rows = rows.
Proof.
  unfold update_where.
  induction rows as [ | r rows IH ]; simpl; [ reflexivity | ].
  intros H. apply orb_false_iff in H as [Hr Hrows].
  now rewrite Hr, IH.
Qed.

Lemma update_where_length (wc : string) (key : value) (cs : list string)
      (vs : list value) (rows : list row) :
  List.length (update_where wc key cs vs rows) = List.length rows.
Proof. unfold update_where. apply length_map. Qed.

(** Whatever its outcome, the batched UPDATE only executes its own
    statement, keeps the number of rows, and — the key column not being
    assigned — keeps for every key whether a row exists; when none of the
    batch's keys has a row the table is left as it was. *)
Lemma executemany_frame (tbl : string) (cs : list string) (wc : string)
      (pairs : list (value * value)) :
  forall (w : world) (res : outcome unit) (w' : world),
    Pivot.executemany_with_keys (SUpdate tbl cs wc) pairs w = (res, w') ->
    exists evs,
      w_log w' = w_log w ++ evs
      /\ Forall (fun ev => exists ps, ev = EvExecute (SUpdate tbl cs wc) ps) evs
      /\ List.length (db_rows (w_db w')) = List.length (db_rows (w_db w))
      /\ (existsb (String.eqb wc) cs = false ->
          forall k, row_exists (w_db w') wc k = row_exists (w_db w) wc k)
      /\ ((forall key, In key (map snd pairs) ->
             row_exists (w_db w) wc key = false) ->
          db_rows (w_db w') = db_rows (w_db w))
      /\ w_store w' = w_store w
      /\ w_committed w' = w_committed w.
Proof.
  induction pairs as [ | [rv key] rest IH ]; intros w res w' Hrun.
  - injection Hrun as <- <-. exists []. rewrite app_nil_r. repeat split; auto.
  - cbn [Pivot.executemany_with_keys] in Hrun.
    destruct rv as [ | z | s | vs | l ];
      try solve [ injection Hrun as <- <-; exists []; rewrite app_nil_r;
                  repeat split; auto ].
    unfold bind at 1, execute at 1 in Hrun.
    destruct (exec (w_db w) (SUpdate tbl cs wc) (vs ++ [key]))
      as [ e | [db' cur'] ] eqn:E.
    + injection Hrun as <- <-.
      exists [EvExecute (SUpdate tbl cs wc) (vs ++ [key])]. cbn.
      repeat split; auto. constructor; [ eauto | constructor ].
    + apply exec_update_rows in E.
      rewrite last_last, removelast_last in E.
      destruct (IH _ _ _ Hrun)
        as (evs & Hlog & Hev & Hlen & Hex & Hmiss & Hst & Hcm).
      cbn [w_db w_log w_store w_committed] in *.
      exists (EvExecute (SUpdate tbl cs wc) (vs ++ [key]) :: evs).
      split; [ | split; [ | split; [ | split; [ | split; [ | split ] ] ] ] ].
      * rewrite Hlog, <- app_assoc. reflexivity.
      * constructor; [ eauto | exact Hev ].
      * rewrite Hlen, E. cbn [db_rows set_rows]. apply update_where_length.
      * intros Hnot k. rewrite (Hex Hnot k), E.
        now apply row_exists_update_where.
      * intros Hall.
        assert (E' : db' = set_rows (w_db w) (db_rows (w_db w))).
        { rewrite E. f_equal. apply update_where_missing.
          apply (Hall key). now left. }
        rewrite Hmiss; [ now rewrite E' | ].
        intros key' Hin. rewrite E'. unfold row_exists. cbn [db_rows set_rows].
        apply (Hall key'). now right.
      * exact Hst.
      * exact Hcm.
Qed.

(** A well-formed UPDATE that does not assign the key column is
    accepted, whether or not a row matches. *)
Lemma exec_update_ok (db : database) (t : Table) (cs : list string)
      (vs : list value) (key : value) :
  bound db t = true -> columns_ok db cs = true ->
  existsb (String.eqb (pk t)) cs = false ->
  List.length vs = List.length cs ->
  forallb is_scalar vs = true -> is_scalar key = true ->
  exec db (SUpdate (name t) cs (pk t)) (vs ++ [key])
  = inr (set_rows db (update_where (pk t) key cs vs (db_rows db)), no_results).
Proof.
  intros Hb Hc Hpk Hlen Hvs Hk.
  destruct (columns_ok_cons _ _ Hc) as [(c & cs' & Ecs) Hall].
  unfold exec, update.
  rewrite (bound_name _ _ Hb), (bound_has_pk _ _ Hb), Hall.
  rewrite forallb_app, Hvs. cbn [forallb]. rewrite Hk.
  rewrite length_app, Hlen. cbn [List.length].
  replace (Nat.eqb (List.length cs + 1) (S (List.length cs))) with true
    by (symmetry; apply Nat.eqb_eq; lia).
  rewrite last_last, removelast_last.
  rewrite <- (bound_pk _ _ Hb), Hpk.
  rewrite Ecs at 1. reflexivity.
Qed.

(** On well-shaped data the batch is accepted in full: one UPDATE per
    key, whichever rows exist. *)
Lemma executemany_ok (t : Table) (cs : list string) (ks : list value) :
  forall (vss : list (list value)) (w : world),
    bound (w_db w) t = true -> columns_ok (w_db w) cs = true ->
    existsb (String.eqb (pk t)) cs = false ->
    well_shaped cs ks vss = true ->
    exists cur log',
      Pivot.executemany_with_keys (SUpdate (name t) cs (pk t))
                                  (combine (map VTuple vss) ks) w
      = (Ok tt,
         mkWorld (set_rows (w_db w)
                           (batch_rows (pk t) cs ks vss (db_rows (w_db w))))
                 (w_committed w) cur (w_store w) log').
Proof.
  induction ks as [ | key ks IH ]; intros vss w Hb Hc Hpk Hws.
  - destruct vss; [ | discriminate ].
    exists (w_cur w), (w_log w). cbn. unfold ret. now destruct w as [[] ? ? ? ?].
  - destruct vss as [ | vs vss ]; [ discriminate | ].
    unfold well_shaped in Hws. cbn [List.length forallb] in Hws.
    apply andb_true_iff in Hws as [Hws Hvss].
    apply andb_true_iff in Hws as [Hlen Hks].
    apply andb_true_iff in Hks as [Hk Hks].
    apply andb_true_iff in Hvss as [Hvs Hvss].
    apply andb_true_iff in Hvs as [Hl Hsc]. apply Nat.eqb_eq in Hl.
    cbn [map combine Pivot.executemany_with_keys].
    unfold bind at 1, execute at 1.
    rewrite exec_update_ok by assumption.
    match goal with
    | |- context [Pivot.executemany_with_keys _ _ ?w1] =>
        destruct (IH vss w1) as (cur & log' & Hrun)
    end; try assumption.
    { unfold well_shaped. cbn [List.length Nat.eqb] in Hlen.
      now rewrite Hlen, Hks, Hvss. }
    rewrite Hrun. cbn [w_db w_committed w_store].
    exists cur, log'. reflexivity.
Qed.

(** The normalisation of [__setitem__] turns a value of the documented
    shape into one row tuple per key. *)
Lemma Pivot_setitem_normalised (t : Table) (ks : list value) (cols : colsarg)
      (vss : list (list value)) (w : world) :
  well_shaped (cols_of cols) ks vss = true ->
  Pivot.__setitem__ (mkPivot t ks) cols (assigned ks cols vss) w
  = (Pivot.executemany_with_keys
       (SUpdate (name t) (cols_of cols) (pk t))
       (combine (map VTuple vss) ks) ;;; commit) w.
Proof.
  intros Hws. unfold well_shaped in Hws.
  apply andb_true_iff in Hws as [Hws Hvss].
  apply andb_true_iff in Hws as [Hlen _]. apply Nat.eqb_eq in Hlen.
  assert (Hone : forall c, cols = OneCol c ->
                   map (fun v => VTuple [v]) (map (hd VNone) vss)
                   = map VTuple vss).
  { intros c ->. rewrite map_map. apply map_ext_in. intros vs Hin.
    rewrite forallb_forall in Hvss. specialize (Hvss vs Hin).
    apply andb_true_iff in Hvss as [Hl _]. apply Nat.eqb_eq in Hl.
    destruct vs as [ | v [ | v' vs' ] ]; try discriminate. reflexivity. }
  unfold Pivot.__setitem__. cbn [keys table].
  destruct cols as [ c | cs ]; cbn [cols_of assigned] in *.
  - specialize (Hone c eq_refl).
    destruct ks as [ | k [ | k' ks' ] ].
    + destruct vss; [ | discriminate ]. reflexivity.
    + destruct vss as [ | vs [ | vs' vss' ] ]; try discriminate.
      destruct vs as [ | v [ | v' vs' ] ]; try discriminate.
      reflexivity.
    + cbn [List.length Nat.eqb]. unfold bind at 2, Pivot.iterate. cbn [iter_value].
      unfold bind at 1, ret at 1. cbn [fst snd]. now rewrite Hone.
  - destruct ks as [ | k [ | k' ks' ] ].
    + destruct vss; [ | discriminate ]. reflexivity.
    + destruct vss as [ | vs [ | vs' vss' ] ]; try discriminate. reflexivity.
    + reflexivity.
Qed.

Lemma write_frame_refl (t : Table) (cs : list string) (ks : list value)
      (w : world) :
  write_frame t cs ks w w.
Proof.
  unfold write_frame. rewrite (issued_app w w []) by now rewrite app_nil_r.
  repeat split; auto.
Qed.

Lemma batch_commit_frame (t : Table) (cs : list string) (ks : list value)
      (rows : list value) (w : world) :
  write_frame t cs ks w
    (snd ((Pivot.executemany_with_keys (SUpdate (name t) cs (pk t))
                                       (combine rows ks) ;;; commit) w)).
Proof.
  unfold bind.
  destruct (Pivot.executemany_with_keys _ _ w) as [res w1] eqn:Hrun.
  destruct (executemany_frame _ _ _ _ _ _ _ Hrun)
    as (evs & Hlog & Hev & Hlen & Hex & Hmiss & _ & _).
  assert (Hupd : Forall (fun ev => ev = EvCommit
                   \/ exists ps, ev = EvExecute (SUpdate (name t) cs (pk t)) ps)
                        evs).
  { eapply Forall_impl; [ | exact Hev ]. intros ev H. now right. }
  assert (Hkeys : (forall k, In k ks -> row_exists (w_db w) (pk t) k = false) ->
                  db_rows (w_db w1) = db_rows (w_db w)).
  { intros Hall. apply Hmiss. intros key Hin. apply Hall.
    apply in_map_iff in Hin as ([rv k'] & <- & Hin).
    now apply in_combine_r in Hin. }
  destruct res as [ [] | e ]; cbn [snd]; unfold write_frame.
  - unfold commit. cbn [snd w_db w_log].
    rewrite (issued_app w _ (evs ++ [EvCommit]))
      by (cbn [w_log]; now rewrite Hlog, <- app_assoc).
    repeat split; auto.
    apply Forall_app. split; [ exact Hupd | ].
    constructor; [ now left | constructor ].
  - rewrite (issued_app w _ evs) by exact Hlog.
    repeat split; auto.
Qed.

(** An accepted INSERT appends one row. *)
Lemma exec_insert_rows (db db' : database) (tbl : string) (cs : list string)
      (ps : list value) (cur : cursor) :
  exec db (SInsert tbl cs) ps = inr (db', cur) ->
  db_rows db' = db_rows db ++ [assign cs ps []].
Proof.
  unfold exec, insert.
  destruct (negb (String.eqb tbl (db_name db))); [ discriminate | ].
  destruct cs as [ | c0 cs0 ]; [ discriminate | ].
  destruct (negb (forallb is_scalar ps)); [ discriminate | ].
  destruct (negb (Nat.eqb _ _)); [ discriminate | ].
  destruct (negb (forallb _ _)); [ discriminate | ].
  destruct (_ || _); [ discriminate | ].
  intros H. injection H as <- _. reflexivity.
Qed.

(** A row fetch never changes the table. *)
Lemma exec_select_all_db (db db' : database) (tbl c : string)
      (ps : list value) (cur : cursor) :
  exec db (SSelectAll tbl c) ps = inr (db', cur) -> db' = db.
Proof.
  unfold exec, select.
  destruct (negb (String.eqb tbl (db_name db))); [ discriminate | ].
  destruct (db_cols db) as [ | c0 cs0 ]; [ discriminate | ].
  destruct (negb (forallb is_scalar ps)); [ discriminate | ].
  destruct ps as [ | k [ | k' ps' ] ]; try discriminate.
  destruct (negb _); [ discriminate | ].
  intros H. now injection H.
Qed.

(** Whatever its outcome, [to_dict] leaves the table as it was. *)
Lemma to_dict_loop_db (t : Table) (ks : list value) :
  forall (rows : dict value sdict) (w : world)
         (res : outcome (dict value sdict)) (w' : world),
    Pivot.to_dict_loop t ks rows w = (res, w') -> w_db w' = w_db w.
Proof.
  induction ks as [ | key rest IH ]; intros rows w res w' Hrun.
  - injection Hrun as _ <-. reflexivity.
  - cbn [Pivot.to_dict_loop] in Hrun.
    unfold bind at 1, execute at 1 in Hrun.
    destruct (exec (w_db w) (SSelectAll (name t) (pk t)) [key])
      as [ e | [db' cur'] ] eqn:E.
    + injection Hrun as _ <-. reflexivity.
    + apply exec_select_all_db in E. subst db'.
      unfold bind at 1, fetchone at 1 in Hrun. cbn [w_cur cur_rows] in Hrun.
      destruct (cur_rows cur') as [ | r rs ].
      * unfold bind at 1, ret at 1 in Hrun. now apply IH in Hrun.
      * unfold bind at 1, bind at 1, description at 1 in Hrun.
        destruct (dict_del _ _ _).
        -- unfold ret at 1 in Hrun. now apply IH in Hrun.
        -- injection Hrun as _ <-. reflexivity.
Qed.

(** Reads leave the table as it was, whatever they return or raise. *)
Lemma reads_keep_table (p : Pivot) (w : world) :
  (forall cols keep, w_db (snd (Pivot.__getitem__ p cols keep w)) = w_db w)
  /\ w_db (snd (Pivot.__len__ p w)) = w_db w
  /\ (forall keep_key, w_db (snd (Pivot.to_dict p keep_key w)) = w_db w).
Proof.
  assert (Hget : forall cols keep,
             w_db (snd (Pivot.__getitem__ p cols keep w)) = w_db w).
  { intros cols keep.
    destruct (Pivot_getitem_run p cols keep w) as (w' & Hrun & Hdb & _).
    now rewrite Hrun. }
  split; [ exact Hget | split ].
  - unfold Pivot.__len__, bind.
    specialize (Hget (OneCol (pk (table p))) true).
    destruct (Pivot.__getitem__ p (OneCol (pk (table p))) true w)
      as [ [ rows | e ] w' ]; [ | exact Hget ].
    destruct (is_list rows); [ exact Hget | ].
    destruct (is_none rows); exact Hget.
  - intros keep_key. unfold Pivot.to_dict, bind.
    destruct (Pivot.to_dict_loop (table p) (keys p) [] w) as [ [ rows | e ] w' ]
      eqn:Hrun; apply to_dict_loop_db in Hrun; [ | exact Hrun ].
    destruct (negb keep_key && Nat.eqb (List.length rows) 1);
      [ | exact Hrun ].
    destruct (rev rows) as [ | [k d] l ]; exact Hrun.
Qed.

(** C10, as the code has it: the pivot holds the existing key [T121] and
    the key [T9], which has no row, and the column written is the primary
    key itself.  The write returns, the table still has its two rows, and
    [T9] now has one: the UPDATE for [T121] has moved that row onto it. *)
Lemma column_write_moves_row_onto_key :
  row_exists (w_db Example.w0) "transaction_id" (VStr "T9") = false
  /\ fst (Pivot.__setitem__
            (mkPivot Example.sales [VStr "T121"; VStr "T9"])
            (OneCol "transaction_id") (VTuple [VStr "T9"; VStr "T9"])
            Example.w0)
     = Ok tt
  /\ row_exists
       (w_db (snd (Pivot.__setitem__
                     (mkPivot Example.sales [VStr "T121"; VStr "T9"])
                     (OneCol "transaction_id") (VTuple [VStr "T9"; VStr "T9"])
                     Example.w0)))
       "transaction_id" (VStr "T9")
     = true
  /\ List.length
       (db_rows (w_db (snd (Pivot.__setitem__
                              (mkPivot Example.sales [VStr "T121"; VStr "T9"])
                              (OneCol "transaction_id")
                              (VTuple [VStr "T9"; VStr "T9"])
                              Example.w0))))
     = List.length (db_rows (w_db Example.w0)).
Proof. repeat split. Qed.

(** C10, amended. A column write never adds a row.  Whatever its
    arguments and outcome, [Pivot.__setitem__] executes nothing but its
    UPDATE (and the commit), the table keeps its number of rows, and when
    no key of the pivot has a row the table is left exactly as it was.
    When the written columns do not include the primary key, the call
    leaves unchanged, for every key, whether a row exists: a key without
    a row stays without one; and on a bound table a value of the
    documented shape is then written without an exception whichever rows
    exist.  Reads through a pivot leave the table as it was, while a row
    write to a missing key that returns has added a row. *)
Theorem Pivot_setitem_never_inserts (t : Table) (ks : list value)
        (cols : colsarg) (values : value) (w : world) :
  let run := Pivot.__setitem__ (mkPivot t ks) cols values w in
  write_frame t (cols_of cols) ks w (snd run)
  /\ (forall vss,
        bound (w_db w) t = true ->
        columns_ok (w_db w) (cols_of cols) = true ->
        existsb (String.eqb (pk t)) (cols_of cols) = false ->
        well_shaped (cols_of cols) ks vss = true ->
        values = assigned ks cols vss ->
        fst run = Ok tt
        /\ db_rows (w_db (snd run))
           = batch_rows (pk t) (cols_of cols) ks vss (db_rows (w_db w)))
  /\ (forall cols' keep,
        w_db (snd (Pivot.__getitem__ (mkPivot t ks) cols' keep w)) = w_db w)
  /\ w_db (snd (Pivot.__len__ (mkPivot t ks) w)) = w_db w
  /\ (forall keep_key,
        w_db (snd (Pivot.to_dict (mkPivot t ks) keep_key w)) = w_db w)
  /\ (forall key ref d,
        bound (w_db w) t = true ->
        is_scalar key = true ->
        nth_error (w_store w) ref = Some d ->
        row_exists (w_db w) (pk t) key = false ->
        fst (Table.__setitem__ t key ref w) = Ok tt ->
        List.length (db_rows (w_db (snd (Table.__setitem__ t key ref w))))
        = S (List.length (db_rows (w_db w)))).
Proof.
  intros run.
  destruct (reads_keep_table (mkPivot t ks) w) as (Hget & Hlen & Hdict).
  split; [ | split; [ | split; [ exact Hget | split; [ exact Hlen
                                          | split; [ exact Hdict | ] ] ] ] ].
  - subst run. unfold Pivot.__setitem__. cbn [keys table].
    set (values' := if Nat.eqb (List.length ks) 1 then VTuple [values]
                    else values).
    unfold bind at 2.
    destruct cols as [ c | cs ]; cbn [cols_of];
      unfold bind at 2, Pivot.iterate;
      destruct (iter_value values') as [ vs | ];
      try apply write_frame_refl;
      unfold ret at 1; cbn [fst snd]; apply batch_commit_frame.
  - intros vss Hb Hc Hpk Hws ->. subst run.
    rewrite Pivot_setitem_normalised by exact Hws.
    unfold bind.
    destruct (executemany_ok t (cols_of cols) ks vss w Hb Hc Hpk Hws)
      as (cur & log' & Hrun).
    rewrite Hrun. split; reflexivity.
  - intros key ref d Hb Hk Hd Hmiss.
    destruct (Table_setitem_run t key ref d w Hb Hk Hd) as (cur & Hrun).
    rewrite Hrun. clear Hrun.
    unfold write_event, updates. rewrite Hmiss. cbn [andb].
    unfold insert_event, verdict.
    destruct (exec _ _ _) as [ e | [db' cur'] ] eqn:E; cbn [fst snd];
      [ discriminate | ].
    intros _. cbn [w_db].
    rewrite (exec_insert_rows _ _ _ _ _ _ E), length_app. cbn. lia.
Qed.

Lemma Pivot_setitem_never_inserts_witness :
  fst (Pivot.__setitem__ (mkPivot Example.sales [VStr "T121"; VStr "T9"])
                         (OneCol "quantity") (VTuple [VInt 1; VInt 2])
                         Example.w0) = Ok tt
  /\ row_exists
       (w_db (snd (Pivot.__setitem__
                     (mkPivot Example.sales [VStr "T121"; VStr "T9"])
                     (OneCol "quantity") (VTuple [VInt 1; VInt 2])
                     Example.w0)))
       "transaction_id" (VStr "T9")
     = row_exists (w_db Example.w0) "transaction_id" (VStr "T9").
Proof.
  pose proof (Pivot_setitem_never_inserts Example.sales
                [VStr "T121"; VStr "T9"] (OneCol "quantity")
                (VTuple [VInt 1; VInt 2]) Example.w0) as (Hframe & Hok & _).
  split.
  - apply (Hok [[VInt 1]; [VInt 2]]); reflexivity.
  - destruct Hframe as (_ & _ & _ & Hex). apply Hex. reflexivity.
Defined.

(* ================================================================= *)
(** ** Writing columns, then reading them back *)

(** A column write of well-shaped data on a bound table returns, and the
    table then holds the rows of the batch. *)
Lemma Pivot_setitem_ok (t : Table) (ks : list value) (cols : colsarg)
      (vss : list (list value)) (w : world) :
  bound (w_db w) t = true ->
  columns_ok (w_db w) (cols_of cols) = true ->
  existsb (String.eqb (pk t)) (cols_of cols) = false ->
  well_shaped (cols_of cols) ks vss = true ->
  exists w1,
    Pivot.__setitem__ (mkPivot t ks) cols (assigned ks cols vss) w = (Ok tt, w1)
    /\ w_db w1
       = set_rows (w_db w)
                  (batch_rows (pk t) (cols_of cols) ks vss (db_rows (w_db w))).
Proof.
  intros Hb Hc Hpk Hws.
  rewrite Pivot_setitem_normalised by exact Hws.
  unfold bind.
  destruct (executemany_ok t (cols_of cols) ks vss w Hb Hc Hpk Hws)
    as (cur & log' & Hrun).
  rewrite Hrun. eexists. split; reflexivity.
Qed.

Lemma matches_same_key (wc : string) (k key : value) (r : row) :
  sql_matches wc k r = true -> sql_matches wc key r = true -> k = key.
Proof.
  unfold sql_matches. intros H1 H2.
  apply andb_true_iff in H1 as [_ H1]. apply andb_true_iff in H2 as [_ H2].
  apply value_eqb_eq in H1, H2. congruence.
Qed.

Lemma lookup_update_where (wc : string) (k key : value) (cs : list string)
      (vs : list value) (rows : list row) :
  existsb (String.eqb wc) cs = false ->
  find (sql_matches wc k) (update_where wc key cs vs rows)
  = option_map (fun r => if sql_matches wc key r then assign cs vs r else r)
               (find (sql_matches wc k) rows).
Proof.
  intros Hnot. unfold update_where.
  induction rows as [ | r rows IH ]; [ reflexivity | ].
  cbn [map find].
  assert (E : sql_matches wc k
                (if sql_matches wc key r then assign cs vs r else r)
              = sql_matches wc k r).
  { destruct (sql_matches wc key r); [ now apply matches_assign | reflexivity ]. }
  rewrite E. destruct (sql_matches wc k r); [ reflexivity | exact IH ].
Qed.

(** The UPDATE for a key rewrites the row that a lookup of that key
    finds... *)
Lemma lookup_update_same (wc : string) (k : value) (cs : list string)
      (vs : list value) (rows : list row) :
  existsb (String.eqb wc) cs = false ->
  find (sql_matches wc k) (update_where wc k cs vs rows)
  = option_map (assign cs vs) (find (sql_matches wc k) rows).
Proof.
  intros Hnot. rewrite lookup_update_where by exact Hnot.
  destruct (find (sql_matches wc k) rows) as [ r | ] eqn:E; [ | reflexivity ].
  apply find_some in E as [_ E]. cbn. now rewrite E.
Qed.

(** ... and leaves alone what a lookup of another key finds. *)
Lemma lookup_update_other (wc : string) (k key : value) (cs : list string)
      (vs : list value) (rows : list row) :
  existsb (String.eqb wc) cs = false -> k <> key ->
  find (sql_matches wc k) (update_where wc key cs vs rows)
  = find (sql_matches wc k) rows.
Proof.
  intros Hnot Hne. rewrite lookup_update_where by exact Hnot.
  destruct (find (sql_matches wc k) rows) as [ r | ] eqn:E; [ | reflexivity ].
  apply find_some in E as [_ E]. cbn.
  destruct (sql_matches wc key r) eqn:E'; [ | reflexivity ].
  exfalso. apply Hne. exact (matches_same_key _ _ _ _ E E').
Qed.

(** Reading back the columns just assigned, in order. *)
Lemma project_assign (cs : list string) :
  forall (vs : list value) (r : row),
    NoDup cs -> List.length vs = List.length cs ->
    project cs (assign cs vs r) = vs.
Proof.
  induction cs as [ | c cs IH ]; intros vs r Hnd Hlen.
  - destruct vs; [ reflexivity | discriminate ].
  - destruct vs as [ | v vs ]; [ discriminate | ].
    inversion Hnd as [ | ? ? Hc Hnd' ]; subst.
    unfold project, assign in *. cbn [combine fold_left map fst snd].
    f_equal.
    + fold (assign cs vs (sset c v r)). rewrite row_get_assign.
      * unfold row_get. now rewrite sget_sset_same.
      * destruct (existsb (String.eqb c) cs) eqn:E; [ | reflexivity ].
        exfalso. apply Hc. apply existsb_exists in E as (c' & Hin & E).
        apply String.eqb_eq in E. now subst.
    + apply IH; [ exact Hnd' | ]. simpl in Hlen. lia.
Qed.

Lemma well_shaped_inv (cs : list string) (ks : list value)
      (vss : list (list value)) :
  well_shaped cs ks vss = true ->
  List.length vss = List.length ks
  /\ (forall k, In k ks -> is_scalar k = true)
  /\ (forall vs, In vs vss -> List.length vs = List.length cs).
Proof.
  unfold well_shaped. intros H.
  apply andb_true_iff in H as [H Hvss]. apply andb_true_iff in H as [Hlen Hks].
  apply Nat.eqb_eq in Hlen. rewrite forallb_forall in Hks, Hvss.
  repeat split; auto.
  intros vs Hin. specialize (Hvss vs Hin).
  apply andb_true_iff in Hvss as [Hl _]. now apply Nat.eqb_eq.
Qed.

Lemma batch_rows_cons (wc : string) (cs : list string) (k : value)
      (ks : list value) (vs : list value) (vss : list (list value))
      (rows : list row) :
  batch_rows wc cs (k :: ks) (vs :: vss) rows
  = batch_rows wc cs ks vss (update_where wc k cs vs rows).
Proof. reflexivity. Qed.

(** Keys outside the batch find what they found before. *)
Lemma lookup_batch_absent (wc : string) (cs : list string) (k : value)
      (ks : list value) :
  existsb (String.eqb wc) cs = false -> ~ In k ks ->
  forall (vss : list (list value)) (rows : list row),
    find (sql_matches wc k) (batch_rows wc cs ks vss rows)
    = find (sql_matches wc k) rows.
Proof.
  intros Hnot. induction ks as [ | k0 ks IH ]; intros Hin vss rows.
  - reflexivity.
  - destruct vss as [ | vs vss ]; [ reflexivity | ].
    rewrite batch_rows_cons, IH.
    + apply lookup_update_other; [ exact Hnot | ].
      intros ->. apply Hin. now left.
    + intros H. apply Hin. now right.
Qed.

(** After the batch, each of its (distinct) keys finds its row with the
    written columns holding the values paired with the key. *)
Lemma lookup_batch (wc : string) (cs : list string) (ks : list value) :
  existsb (String.eqb wc) cs = false -> NoDup ks ->
  forall (vss : list (list value)) (rows : list row) (k : value)
         (vs : list value) (r : row),
    In (k, vs) (combine ks vss) ->
    find (sql_matches wc k) rows = Some r ->
    find (sql_matches wc k) (batch_rows wc cs ks vss rows)
    = Some (assign cs vs r).
Proof.
  intros Hnot. induction ks as [ | k0 ks IH ]; intros Hnd vss rows k vs r Hin Hr.
  - contradiction.
  - destruct vss as [ | vs0 vss ]; [ contradiction | ].
    inversion Hnd as [ | ? ? Hk0 Hnd' ]; subst.
    rewrite batch_rows_cons. destruct Hin as [ E | Hin ].
    + injection E as -> ->.
      rewrite lookup_batch_absent by assumption.
      rewrite lookup_update_same by exact Hnot. now rewrite Hr.
    + apply IH; try assumption.
      rewrite lookup_update_other; [ exact Hr | exact Hnot | ].
      intros ->. apply Hk0. now apply in_combine_l in Hin.
Qed.

Lemma map_combine_ext {A B C} (F : A -> C) (G : B -> C) (l : list A) :
  forall l' : list B,
    List.length l' = List.length l ->
    (forall a b, In (a, b) (combine l l') -> F a = G b) ->
    map F l = map G l'.
Proof.
  induction l as [ | a l IH ]; intros [ | b l' ] Hlen H; try discriminate.
  - reflexivity.
  - cbn. f_equal.
    + apply H. now left.
    + apply IH; [ simpl in Hlen; lia | ].
      intros a' b' Hin. apply H. now right.
Qed.

Lemma in_combine_exists {A B} (l : list A) :
  forall (l' : list B) (a : A),
    List.length l' = List.length l -> In a l ->
    exists b, In (a, b) (combine l l').
Proof.
  induction l as [ | a0 l IH ]; intros [ | b0 l' ] a Hlen Hin;
    try discriminate; try contradiction.
  destruct Hin as [ -> | Hin ].
  - exists b0. now left.
  - destruct (IH l' a) as [b Hb]; [ simpl in Hlen; lia | exact Hin | ].
    exists b. now right.
Qed.

(** A column write followed by the same column read gives the written
    value back, for distinct keys whose rows exist and distinct columns
    other than the primary key. *)
Lemma Pivot_set_get (t : Table) (ks : list value) (cols : colsarg)
      (vss : list (list value)) (w : world) :
  bound (w_db w) t = true ->
  columns_ok (w_db w) (cols_of cols) = true ->
  NoDup (cols_of cols) ->
  existsb (String.eqb (pk t)) (cols_of cols) = false ->
  match cols with OneCol _ => True | Cols cs => List.length cs <> 1 end ->
  NoDup ks -> ks <> [] ->
  (forall k, In k ks -> row_exists (w_db w) (pk t) k = true) ->
  well_shaped (cols_of cols) ks vss = true ->
  exists w1,
    Pivot.__setitem__ (mkPivot t ks) cols (assigned ks cols vss) w = (Ok tt, w1)
    /\ fst (Pivot.__getitem__ (mkPivot t ks) cols false w1)
       = Ok (assigned ks cols vss).
Proof.
  intros Hb Hc Hndc Hpk Hshape Hndk Hne Hex Hws.
  destruct (Pivot_setitem_ok t ks cols vss w Hb Hc Hpk Hws) as (w1 & Hset & Hdb).
  exists w1. split; [ exact Hset | ].
  destruct (well_shaped_inv _ _ _ Hws) as (Hlen & Hsc & Hvs).
  destruct (Pivot_getitem_run (mkPivot t ks) cols false w1) as (w2 & Hget & _).
  rewrite Hget. cbn [fst table keys]. clear Hget Hset.
  set (db1 := w_db w1) in *.
  assert (Hb1 : bound db1 t = true) by (subst db1; rewrite Hdb; exact Hb).
  assert (Hc1 : columns_ok db1 (cols_of cols) = true)
    by (subst db1; rewrite Hdb; exact Hc).
  assert (Hrow : forall k vs, In (k, vs) (combine ks vss) ->
            exists r', lookup db1 (pk t) k = Some r'
                       /\ project (cols_of cols) r' = vs).
  { intros k vs Hin.
    pose proof (Hex k (in_combine_l _ _ _ _ Hin)) as He.
    rewrite row_exists_lookup in He.
    destruct (lookup (w_db w) (pk t) k) as [ r | ] eqn:Er; [ | discriminate ].
    exists (assign (cols_of cols) vs r). split.
    - unfold lookup. subst db1. rewrite Hdb. cbn [db_rows set_rows].
      now apply lookup_batch.
    - apply project_assign; [ exact Hndc | ].
      apply Hvs. now apply in_combine_r in Hin. }
  destruct cols as [ c | cs ]; cbn [cols_of] in *.
  - rewrite (sequence_map_ok _ (fun k => match lookup db1 (pk t) k with
                                         | Some r => row_get c r
                                         | None => VNone
                                         end)).
    + f_equal.
      rewrite (map_combine_ext _ (hd VNone) ks vss Hlen).
      * destruct ks as [ | k [ | k' ks' ] ]; [ contradiction | | ];
          destruct vss as [ | vs [ | vs' vss' ] ]; try discriminate; reflexivity.
      * intros k vs Hin. destruct (Hrow k vs Hin) as (r' & -> & Hp).
        rewrite <- Hp. reflexivity.
    + intros k Hin.
      rewrite per_key_single; try assumption.
      * destruct (in_combine_exists ks vss k Hlen Hin) as [vs Hkv].
        destruct (Hrow k vs Hkv) as (r' & -> & _). reflexivity.
      * unfold columns_ok in Hc1. simpl in Hc1. now rewrite andb_true_r in Hc1.
      * now apply Hsc.
  - rewrite (sequence_map_ok _ (row_or_none db1 t cs)).
    + f_equal.
      rewrite (map_combine_ext _ VTuple ks vss Hlen).
      * destruct ks as [ | k [ | k' ks' ] ]; [ contradiction | | ];
          destruct vss as [ | vs [ | vs' vss' ] ]; try discriminate; reflexivity.
      * intros k vs Hin. destruct (Hrow k vs Hin) as (r' & Hl & Hp).
        unfold row_or_none. now rewrite Hl, Hp.
    + intros k Hin. apply per_key_tuple; try assumption.
      * now apply Hsc.
      * simpl. now apply Nat.eqb_neq.
Qed.

(** C3, as the code has it: the pivot names the existing key [T121]
    twice.  Both UPDATEs reach the one row, the second overwrites the
    first, and the read gives [((3, 4), (3, 4))] where [((1, 2), (3, 4))]
    was assigned. *)
Lemma roundtrip_repeated_key_last_wins :
  row_exists (w_db Example.w0) "transaction_id" (VStr "T121") = true
  /\ fst (Pivot.__setitem__
            (mkPivot Example.sales [VStr "T121"; VStr "T121"])
            (Cols ["quantity"; "discount"])
            (VTuple [VTuple [VInt 1; VInt 2]; VTuple [VInt 3; VInt 4]])
            Example.w0)
     = Ok tt
  /\ fst (Pivot.__getitem__
            (mkPivot Example.sales [VStr "T121"; VStr "T121"])
            (Cols ["quantity"; "discount"]) false
            (snd (Pivot.__setitem__
                    (mkPivot Example.sales [VStr "T121"; VStr "T121"])
                    (Cols ["quantity"; "discount"])
                    (VTuple [VTuple [VInt 1; VInt 2];
                             VTuple [VInt 3; VInt 4]])
                    Example.w0)))
     = Ok (VTuple [VTuple [VInt 3; VInt 4]; VTuple [VInt 3; VInt 4]]).
Proof. repeat split. Qed.

(** C3, amended. On a bound table, for two distinct keys [k1], [k2] whose
    rows exist and two distinct columns [c1], [c2] of the table other
    than the primary key, assigning [((a, b), (c, d))] to [pivot[c1, c2]]
    returns, and reading [pivot[c1, c2]] afterwards returns
    [((a, b), (c, d))]: the tuple of [k1] first, that of [k2] second. *)
Theorem Pivot_set_then_get_roundtrip (t : Table) (k1 k2 : value)
        (c1 c2 : string) (a b c d : value) (w : world) :
  bound (w_db w) t = true ->
  columns_ok (w_db w) [c1; c2] = true ->
  c1 <> c2 -> c1 <> pk t -> c2 <> pk t ->
  k1 <> k2 ->
  row_exists (w_db w) (pk t) k1 = true ->
  row_exists (w_db w) (pk t) k2 = true ->
  forallb is_scalar [k1; k2; a; b; c; d] = true ->
  let p := mkPivot t [k1; k2] in
  let v := VTuple [VTuple [a; b]; VTuple [c; d]] in
  exists w1,
    Pivot.__setitem__ p (Cols [c1; c2]) v w = (Ok tt, w1)
    /\ fst (Pivot.__getitem__ p (Cols [c1; c2]) false w1) = Ok v.
Proof.
  intros Hb Hc Hcc Hc1 Hc2 Hkk He1 He2 Hsc p v.
  cbn [forallb] in Hsc.
  repeat (apply andb_true_iff in Hsc as [?H Hsc]).
  apply (Pivot_set_get t [k1; k2] (Cols [c1; c2]) [[a; b]; [c; d]] w);
    cbn [cols_of]; try assumption.
  - repeat constructor; simpl; intuition congruence.
  - cbn [existsb]. apply String.eqb_neq in Hc1, Hc2.
    rewrite String.eqb_sym, Hc1, String.eqb_sym, Hc2. reflexivity.
  - discriminate.
  - repeat constructor; simpl; intuition congruence.
  - discriminate.
  - intros k [ <- | [ <- | [] ] ]; assumption.
  - unfold well_shaped. cbn. now rewrite H, H0, H1, H2, H3, H4.
Qed.

Lemma Pivot_set_then_get_roundtrip_witness :
  exists w1,
    Pivot.__setitem__ (mkPivot Example.sales [VStr "T121"; VStr "T122"])
                      (Cols ["quantity"; "discount"])
                      (VTuple [VTuple [VInt 1; VInt 2]; VTuple [VInt 3; VNone]])
                      Example.w0 = (Ok tt, w1)
    /\ fst (Pivot.__getitem__ (mkPivot Example.sales [VStr "T121"; VStr "T122"])
                              (Cols ["quantity"; "discount"]) false w1)
       = Ok (VTuple [VTuple [VInt 1; VInt 2]; VTuple [VInt 3; VNone]]).
Proof.
  apply (Pivot_set_then_get_roundtrip Example.sales (VStr "T121") (VStr "T122")
           "quantity" "discount" (VInt 1) (VInt 2) (VInt 3) VNone Example.w0);
    try reflexivity; discriminate.
Defined.

(* ================================================================= *)
(** ** Iteration, membership and [__add__] *)

(** X7. Iterating a pivot yields one pivot per key, in key order, each
    over the same table and holding exactly that key; when no key is
    itself a tuple these are the pivots that indexing the table by each
    key gives. *)
Theorem Pivot_iter_partition (p : Pivot) :
  List.concat (map keys (Pivot.__iter__ p)) = keys p
  /\ Forall (fun q => table q = table p /\ List.length (keys q) = 1)
            (Pivot.__iter__ p)
  /\ (forallb (fun k => negb (is_tuple k)) (keys p) = true ->
      Pivot.__iter__ p = map (Table.__getitem__ (table p)) (keys p)).
Proof.
  unfold Pivot.__iter__.
  induction (keys p) as [ | k ks (IH1 & IH2 & IH3) ].
  - repeat split. constructor.
  - repeat split.
    + cbn. now rewrite IH1.
    + constructor; [ now split | exact IH2 ].
    + cbn [forallb map]. intros H. apply andb_true_iff in H as [Hk Hks].
      rewrite (IH3 Hks). f_equal.
      unfold Table.__getitem__. now rewrite Hk.
Qed.

(** Reading through single-key pivots gives the per-key results in
    order, or the first exception, and leaves the table alone. *)
Lemma read_each_spec (t : Table) (cols : colsarg) (keep : bool)
      (ks : list value) :
  forall w : world,
  exists w',
    read_each (map (fun k => mkPivot t [k]) ks) cols keep w
    = (sequence (map (per_key (w_db w) t (cols_of cols) keep) ks), w')
    /\ w_db w' = w_db w.
Proof.
  induction ks as [ | k ks IH ]; intros w.
  - exists w. now split.
  - cbn [map read_each]. unfold bind at 1.
    destruct (Pivot_getitem_run (mkPivot t [k]) cols keep w)
      as (w1 & Hrun & Hdb & _).
    rewrite Hrun. cbn [table keys map sequence].
    destruct (per_key (w_db w) t (cols_of cols) keep k) as [ v | e ].
    + cbn [collapse]. unfold bind at 1.
      destruct (IH w1) as (w' & Hrest & Hdb').
      rewrite Hdb in Hrest. rewrite Hrest.
      exists w'. split; [ | congruence ].
      destruct (sequence (map _ ks)); reflexivity.
    + exists w1. now split.
Qed.

(** X8. Reading columns over a whole pivot agrees with reading them
    through the pivots that iterating it yields: the whole read is the
    list of the single reads collapsed by the number of keys, and it
    raises exactly the exception the single reads raise first. *)
Theorem Pivot_read_each_agrees (p : Pivot) (cols : colsarg) (keep : bool)
        (w : world) :
  fst (Pivot.__getitem__ p cols keep w)
  = match fst (read_each (Pivot.__iter__ p) cols keep w) with
    | Ok rs => Ok (collapse rs)
    | Raise e => Raise e
    end.
Proof.
  destruct (Pivot_getitem_run p cols keep w) as (w1 & Hrun & _).
  destruct (read_each_spec (table p) cols keep (keys p) w) as (w2 & Heach & _).
  unfold Pivot.__iter__. now rewrite Hrun, Heach.
Qed.

(** X9. Membership in a pivot is membership in its key sequence and
    says nothing about rows: the pivot of a single bindable key contains
    that key, while its truth value is whether the row exists. *)
Theorem Pivot_contains_is_about_keys (t : Table) (key : value) (w : world) :
  bound (w_db w) t = true ->
  is_scalar key = true ->
  Pivot.__contains__ (Table.__getitem__ t key) key = true
  /\ fst (Pivot.truth (Table.__getitem__ t key) w)
     = Ok (row_exists (w_db w) (pk t) key)
  /\ (forall ks k,
        Pivot.__contains__ (Table.__getitem__ t (VTuple ks)) k = true
        <-> In k ks).
Proof.
  intros Hb Hk. split; [ | split ].
  - assert (Hp : Table.__getitem__ t key = mkPivot t [key]).
    { unfold Table.__getitem__. destruct key; try discriminate; reflexivity. }
    rewrite Hp. unfold Pivot.__contains__. cbn [keys existsb].
    now rewrite value_eqb_refl.
  - destruct (truth_probe t key w Hb Hk) as (cur & Hrun). now rewrite Hrun.
  - intros ks k. unfold Pivot.__contains__, Table.__getitem__. cbn [keys is_tuple negb].
    rewrite existsb_exists. split.
    + intros (k' & Hin & E). apply value_eqb_eq in E. now subst.
    + intros Hin. exists k. split; [ exact Hin | apply value_eqb_refl ].
Qed.

Lemma Pivot_contains_is_about_keys_witness :
  Pivot.__contains__ (Table.__getitem__ Example.sales (VStr "T9")) (VStr "T9")
  = true
  /\ fst (Pivot.truth (Table.__getitem__ Example.sales (VStr "T9")) Example.w0)
     = Ok false.
Proof.
  pose proof (Pivot_contains_is_about_keys Example.sales (VStr "T9") Example.w0
                eq_refl eq_refl) as (Hc & Ht & _).
  split; [ exact Hc | exact Ht ].
Defined.

(** X10. [Pivot.__add__] adds nothing to a cell: it leaves the table as
    it was, and it returns only for a pivot of exactly one key whose
    cell is a string, giving that string followed by the column name.
    On a bound table a string cell gives that result and an integer cell
    raises [TypeError]. *)
Theorem Pivot_add_behaviour (p : Pivot) (col : string) (v' : value)
        (w : world) :
  w_db (snd (Pivot.__add__ p col v' w)) = w_db w
  /\ (forall x, fst (Pivot.__add__ p col v' w) = Ok x ->
        exists k s, keys p = [k] /\ x = VStr (s ++ col)%string)
  /\ (forall k r,
        keys p = [k] ->
        bound (w_db w) (table p) = true ->
        has_col (w_db w) col = true ->
        is_scalar k = true ->
        lookup (w_db w) (pk (table p)) k = Some r ->
        (forall s, row_get col r = VStr s ->
           fst (Pivot.__add__ p col v' w) = Ok (VStr (s ++ col)%string))
        /\ (forall z, row_get col r = VInt z ->
              fst (Pivot.__add__ p col v' w)
              = Raise (TypeError "unsupported operand type(s) for +"))).
Proof.
  unfold Pivot.__add__, bind.
  destruct (Pivot_getitem_run p (OneCol col) false w) as (w1 & Hrun & Hdb & _).
  rewrite Hrun. cbn [cols_of].
  destruct (sequence (map (per_key (w_db w) (table p) [col] false) (keys p)))
    as [ rs | e ] eqn:Hseq.
  - pose proof (sequence_ok_length _ _ Hseq) as Hlen. rewrite length_map in Hlen.
    split; [ | split ].
    + destruct (collapse rs) as [ | | | | ]; exact Hdb.
    + intros x Hx.
      destruct (keys p) as [ | k [ | k' ks ] ];
        destruct rs as [ | r [ | r' rs' ] ]; try discriminate.
      destruct r; try discriminate.
      cbn in Hx. injection Hx as <-. eauto.
    + intros k r Hk Hb Hc Hsc Hrow. rewrite Hk in Hseq. cbn [map sequence] in Hseq.
      rewrite per_key_single, Hrow in Hseq by assumption.
      injection Hseq as <-. cbn [collapse].
      split; [ intros s -> | intros z -> ]; reflexivity.
  - split; [ exact Hdb | split ].
    + discriminate.
    + intros k r Hk Hb Hc Hsc Hrow. rewrite Hk in Hseq. cbn [map sequence] in Hseq.
      rewrite per_key_single, Hrow in Hseq by assumption. discriminate.
Qed.

Lemma Pivot_add_behaviour_witness :
  fst (Pivot.__add__ (mkPivot Example.sales [VStr "T121"]) "quantity" (VInt 1)
                     Example.w0)
  = Raise (TypeError "unsupported operand type(s) for +").
Proof.
  apply (proj2 (proj2 (proj2 (Pivot_add_behaviour
                  (mkPivot Example.sales [VStr "T121"]) "quantity" (VInt 1)
                  Example.w0))
                  (VStr "T121")
                  [("transaction_id", VStr "T121"); ("quantity", VInt 4);
                   ("discount", VInt 5)]
                  eq_refl eq_refl eq_refl eq_refl eq_refl) 4%Z).
  reflexivity.
Defined.

Lemma sget_filter_columns (c wc : string) (r : row) (cs : list string) :
  In c cs -> c <> wc ->
  sget c (filter (fun cv => negb (String.eqb (fst cv) wc))
                 (combine cs (project cs r)))
  = Some (row_get c r).
Proof.
  intros Hin Hne. induction cs as [ | c0 cs IH ]; [ contradiction | ].
  cbn [project map combine filter fst].
  destruct (String.eqb c0 wc) eqn:E0; cbn [negb].
  - apply IH. destruct Hin as [ -> | Hin ]; [ | exact Hin ].
    apply String.eqb_eq in E0. contradiction.
  - cbn. destruct (String.eqb c0 c) eqn:Ec.
    + apply String.eqb_eq in Ec. now subst.
    + apply IH. destruct Hin as [ -> | Hin ]; [ | exact Hin ].
      now rewrite String.eqb_refl in Ec.
Qed.

Lemma sget_filter_dropped (wc : string) (d : sdict) :
  sget wc (filter (fun cv => negb (String.eqb (fst cv) wc)) d) = None.
Proof.
  induction d as [ | [c v] d IH ]; [ reflexivity | ].
  cbn [filter fst]. destruct (String.eqb c wc) eqn:E; cbn [negb]; [ exact IH | ].
  cbn. now rewrite E.
Qed.

(** X11. For a single key whose row exists, [to_dict] without
    [keep_key] and the single-column read tell the same story: the
    mapping holds, for every column of the table but the primary key,
    the value the column read returns, and it has no entry for the
    primary key. *)
Theorem to_dict_agrees_with_read (t : Table) (key : value) (r : row)
        (w : world) :
  bound (w_db w) t = true ->
  NoDup (db_cols (w_db w)) ->
  is_scalar key = true ->
  lookup (w_db w) (pk t) key = Some r ->
  exists d,
    fst (Pivot.to_dict (mkPivot t [key]) false w) = Ok (Columns d)
    /\ sget (pk t) d = None
    /\ (forall c, has_col (w_db w) c = true -> c <> pk t ->
          exists v,
            sget c d = Some v
            /\ fst (Pivot.__getitem__ (mkPivot t [key]) (OneCol c) false w)
               = Ok v).
Proof.
  intros Hb Hnd Hk Hrow.
  assert (Hs : forallb is_scalar [key] = true) by (cbn; now rewrite Hk).
  destruct (to_dict_loop_spec (w_db w) t [key] Hb Hnd Hs [] w eq_refl)
    as (w1 & Hloop & _).
  exists (row_mapping (w_db w) t key).
  unfold Pivot.to_dict, bind. cbn [table keys]. rewrite Hloop. cbn.
  unfold row_mapping. rewrite Hrow.
  split; [ reflexivity | split; [ apply sget_filter_dropped | ] ].
  intros c Hc Hne. exists (row_get c r). split.
  - apply sget_filter_columns; [ now apply has_col_In | exact Hne ].
  - destruct (Pivot_getitem_run (mkPivot t [key]) (OneCol c) false w)
      as (w2 & Hrun & _).
    rewrite Hrun. cbn [fst table keys cols_of map sequence].
    rewrite per_key_single, Hrow by assumption. reflexivity.
Qed.

Lemma to_dict_agrees_with_read_witness :
  exists d,
    fst (Pivot.to_dict (mkPivot Example.sales [VStr "T122"]) false Example.w0)
    = Ok (Columns d)
    /\ sget "transaction_id" d = None.
Proof.
  assert (Hnd : NoDup (db_cols (w_db Example.w0))).
  { simpl. repeat constructor; simpl; intuition discriminate. }
  destruct (to_dict_agrees_with_read Example.sales (VStr "T122")
              [("transaction_id", VStr "T122"); ("quantity", VInt 10)]
              Example.w0 eq_refl Hnd eq_refl eq_refl) as (d & Hd & Hpk & _).
  exists d. split; [ exact Hd | exact Hpk ].
Defined.

(* ================================================================= *)
(** ** Deleting rows and counting them *)

Lemma exec_delete_ok (db : database) (t : Table) (key : value) :
  bound db t = true -> is_scalar key = true ->
  exec_more db (SDelete (name t) (pk t)) [key]
  = inr (set_rows db (delete_where (pk t) key (db_rows db)), no_results).
Proof.
  intros Hb Hk. unfold exec_more.
  rewrite (bound_name _ _ Hb), (bound_has_pk _ _ Hb).
  cbn [forallb negb]. now rewrite Hk.
Qed.

Lemma remaining_cons (wc : string) (k : value) (ks : list value)
      (rows : list row) :
  remaining wc ks (delete_where wc k rows) = remaining wc (k :: ks) rows.
Proof.
  unfold remaining, delete_where.
  induction rows as [ | r rows IH ]; [ reflexivity | ].
  simpl in *.
  destruct (sql_matches wc k r); simpl; [ exact IH | ].
  destruct (existsb _ ks); simpl; now rewrite IH.
Qed.

Lemma remaining_nil (wc : string) (rows : list row) :
  remaining wc [] rows = rows.
Proof.
  unfold remaining. induction rows as [ | r rows IH ]; [ reflexivity | ].
  simpl in *. now rewrite IH.
Qed.

(** The batched DELETE over bindable keys goes through and leaves the
    rows that match none of them. *)
Lemma executemany_delete_ok (t : Table) (ks : list value) :
  forall w : world,
    bound (w_db w) t = true -> forallb is_scalar ks = true ->
    exists cur,
      Table.executemany_delete (SDelete (name t) (pk t)) ks w
      = (Ok tt,
         mkWorld (set_rows (w_db w) (remaining (pk t) ks (db_rows (w_db w))))
                 (w_committed w) cur (w_store w) (w_log w)).
Proof.
  induction ks as [ | k ks IH ]; intros w Hb Hs.
  - exists (w_cur w). cbn [Table.executemany_delete]. unfold ret.
    rewrite remaining_nil. now destruct w as [[] ? ? ? ?].
  - cbn [forallb] in Hs. apply andb_true_iff in Hs as [Hk Hs].
    cbn [Table.executemany_delete]. unfold bind at 1, execute_more at 1.
    rewrite exec_delete_ok by assumption.
    match goal with
    | |- context [Table.executemany_delete _ ks ?w1] =>
        destruct (IH w1 Hb Hs) as (cur & Hrun)
    end.
    rewrite Hrun. cbn [w_db w_committed w_store w_log db_rows set_rows].
    rewrite remaining_cons. exists cur. reflexivity.
Qed.

Lemma Table_delitem_run (t : Table) (arg : value) (w : world) :
  bound (w_db w) t = true ->
  forallb is_scalar (keys (Table.__getitem__ t arg)) = true ->
  let rows' := remaining (pk t) (keys (Table.__getitem__ t arg))
                         (db_rows (w_db w)) in
  exists cur,
    Table.__delitem__ t arg w
    = (Ok tt, mkWorld (set_rows (w_db w) rows') rows' cur (w_store w)
                      (w_log w ++ [EvCommit])).
Proof.
  intros Hb Hs rows'. unfold Table.__delitem__, bind.
  unfold Table.__getitem__ in *. cbn [keys] in *.
  destruct (executemany_delete_ok t _ w Hb Hs) as (cur & Hrun).
  rewrite Hrun. exists cur. reflexivity.
Qed.

Lemma remaining_no_match (wc : string) (ks : list value) (k : value)
      (rows : list row) :
  In k ks -> existsb (sql_matches wc k) (remaining wc ks rows) = false.
Proof.
  intros Hin. destruct (existsb _ _) eqn:E; [ | reflexivity ].
  apply existsb_exists in E as (r & Hr & Hm).
  apply filter_In in Hr as [_ Hq].
  apply negb_true_iff in Hq.
  assert (Hex : existsb (fun k' => sql_matches wc k' r) ks = true).
  { apply existsb_exists. now exists k. }
  congruence.
Qed.

Lemma remaining_lookup_other (wc : string) (ks : list value) (k : value)
      (rows : list row) :
  ~ In k ks ->
  find (sql_matches wc k) (remaining wc ks rows)
  = find (sql_matches wc k) rows.
Proof.
  intros Hnot. unfold remaining.
  induction rows as [ | r rows IH ]; [ reflexivity | ].
  cbn [filter find].
  destruct (sql_matches wc k r) eqn:Em.
  - assert (Hq : existsb (fun k' => sql_matches wc k' r) ks = false).
    { destruct (existsb _ ks) eqn:E; [ | reflexivity ].
      apply existsb_exists in E as (k' & Hin & Hm').
      exfalso. apply Hnot.
      now rewrite (matches_same_key _ _ _ _ Em Hm'). }
    rewrite Hq. cbn [negb find]. now rewrite Em.
  - destruct (negb _); [ cbn [find]; now rewrite Em | exact IH ].
Qed.

Lemma remaining_untouched (wc : string) (ks : list value) (rows : list row) :
  (forall k, In k ks -> existsb (sql_matches wc k) rows = false) ->
  remaining wc ks rows = rows.
Proof.
  intros Hall. unfold remaining.
  induction rows as [ | r rows IH ]; [ reflexivity | ].
  cbn [filter].
  assert (Hq : existsb (fun k' => sql_matches wc k' r) ks = false).
  { destruct (existsb _ ks) eqn:E; [ | reflexivity ].
    apply existsb_exists in E as (k' & Hin & Hm').
    specialize (Hall k' Hin). cbn in Hall. now rewrite Hm' in Hall. }
  rewrite Hq. cbn [negb]. f_equal. apply IH.
  intros k Hin. specialize (Hall k Hin). cbn in Hall.
  now apply orb_false_iff in Hall as [_ Hall].
Qed.

(** X4. [del table[arg]] over bindable keys returns and commits; the keys
    it deletes are those of [table[arg]].  Afterwards none of them has a
    row, every other key finds the row it found before, and when none of
    the keys had a row the table is as it was. *)
Theorem Table_delitem_removes (t : Table) (arg : value) (w : world) :
  bound (w_db w) t = true ->
  forallb is_scalar (keys (Table.__getitem__ t arg)) = true ->
  exists w',
    Table.__delitem__ t arg w = (Ok tt, w')
    /\ w_committed w' = db_rows (w_db w')
    /\ (forall k, In k (keys (Table.__getitem__ t arg)) ->
          row_exists (w_db w') (pk t) k = false)
    /\ (forall k, ~ In k (keys (Table.__getitem__ t arg)) ->
          lookup (w_db w') (pk t) k = lookup (w_db w) (pk t) k)
    /\ ((forall k, In k (keys (Table.__getitem__ t arg)) ->
           row_exists (w_db w) (pk t) k = false) ->
        db_rows (w_db w') = db_rows (w_db w)).
Proof.
  intros Hb Hs.
  destruct (Table_delitem_run t arg w Hb Hs) as (cur & Hrun).
  eexists. split; [ exact Hrun | ].
  cbn [w_db w_committed db_rows set_rows].
  split; [ reflexivity | split; [ | split ] ].
  - intros k Hin. unfold row_exists. cbn [db_rows set_rows].
    now apply remaining_no_match.
  - intros k Hnot. unfold lookup. cbn [db_rows set_rows].
    now apply remaining_lookup_other.
  - intros Hall. now apply remaining_untouched.
Qed.

Lemma Table_delitem_removes_witness :
  exists w',
    Table.__delitem__ Example.sales (VTuple [VStr "T121"; VStr "T9"]) Example.w0
    = (Ok tt, w')
    /\ row_exists (w_db w') "transaction_id" (VStr "T121") = false
    /\ lookup (w_db w') "transaction_id" (VStr "T122")
       = lookup (w_db Example.w0) "transaction_id" (VStr "T122").
Proof.
  destruct (Table_delitem_removes Example.sales
              (VTuple [VStr "T121"; VStr "T9"]) Example.w0 eq_refl eq_refl)
    as (w' & Hrun & _ & Hgone & Hkept & _).
  exists w'. split; [ exact Hrun | split ].
  - apply Hgone. now left.
  - apply Hkept. cbn. intuition discriminate.
Defined.

(** The row count on a table of the right name: the number of rows, with
    nothing changed but the cursor. *)
Lemma Table_len_run (t : Table) (w : world) :
  String.eqb (name t) (db_name (w_db w)) = true ->
  exists cur,
    Table.__len__ t w
    = (Ok (VInt (Z.of_nat (List.length (db_rows (w_db w))))),
       mkWorld (w_db w) (w_committed w) cur (w_store w) (w_log w)).
Proof.
  intros Hn. unfold Table.__len__, bind, execute_more, exec_more.
  rewrite Hn. cbn. eexists. reflexivity.
Qed.

Lemma delete_where_missing (wc : string) (k : value) (rows : list row) :
  existsb (sql_matches wc k) rows = false -> delete_where wc k rows = rows.
Proof.
  unfold delete_where.
  induction rows as [ | r rows IH ]; [ reflexivity | ].
  simpl. intros H. apply orb_false_iff in H as [Hr Hrows].
  rewrite Hr. simpl. now rewrite IH.
Qed.

Lemma existsb_filter_false {A} (p f : A -> bool) (l : list A) :
  existsb p l = false -> existsb p (filter f l) = false.
Proof.
  induction l as [ | x l IH ]; [ reflexivity | ].
  simpl. intros H. apply orb_false_iff in H as [Hx Hl].
  destruct (f x); simpl; [ rewrite Hx | ]; now apply IH.
Qed.

Lemma pk_ok_delete (wc : string) (k : value) (rows : list row) :
  pk_ok wc rows = true -> pk_ok wc (delete_where wc k rows) = true.
Proof.
  unfold delete_where.
  induction rows as [ | r rows IH ]; [ reflexivity | ].
  cbn [pk_ok filter]. intros H.
  apply andb_true_iff in H as [H Hrest]. apply andb_true_iff in H as [Hnn Hnd].
  destruct (negb (sql_matches wc k r)); [ | now apply IH ].
  cbn [pk_ok]. rewrite Hnn, (IH Hrest), andb_true_r. cbn [andb].
  apply negb_true_iff in Hnd. apply negb_true_iff.
  now apply existsb_filter_false.
Qed.

(** With distinct primary keys, deleting a key that has a row removes
    exactly one row. *)
Lemma delete_where_one (wc : string) (k : value) (rows : list row) :
  pk_ok wc rows = true ->
  existsb (sql_matches wc k) rows = true ->
  S (List.length (delete_where wc k rows)) = List.length rows.
Proof.
  induction rows as [ | r rows IH ]; [ discriminate | ].
  cbn [pk_ok existsb]. intros H Hex.
  apply andb_true_iff in H as [H Hrest]. apply andb_true_iff in H as [_ Hnd].
  apply negb_true_iff in Hnd.
  unfold delete_where. cbn [filter].
  destruct (sql_matches wc k r) eqn:Em; cbn [negb orb] in *.
  - fold (delete_where wc k rows). rewrite delete_where_missing; [ reflexivity | ].
    unfold sql_matches in Em. apply andb_true_iff in Em as [_ Em].
    apply value_eqb_eq in Em.
    destruct (existsb (sql_matches wc k) rows) eqn:E; [ | reflexivity ].
    apply existsb_exists in E as (r' & Hin & Hm).
    unfold sql_matches in Hm. apply andb_true_iff in Hm as [_ Hm].
    apply value_eqb_eq in Hm.
    assert (Hdup : existsb (fun r' => value_eqb (row_get wc r') (row_get wc r))
                           rows = true).
    { apply existsb_exists. exists r'. split; [ exact Hin | ].
      apply value_eqb_eq. congruence. }
    congruence.
  - cbn [List.length]. fold (delete_where wc k rows). now rewrite IH.
Qed.

Lemma delete_where_as_remaining (wc : string) (k : value) (rows : list row) :
  delete_where wc k rows = remaining wc [k] rows.
Proof. now rewrite <- remaining_cons, remaining_nil. Qed.

Lemma exists_after_delete (wc : string) (k k' : value) (rows : list row) :
  k' <> k ->
  existsb (sql_matches wc k') (delete_where wc k rows)
  = existsb (sql_matches wc k') rows.
Proof.
  intros Hne. rewrite !find_existsb, delete_where_as_remaining.
  rewrite remaining_lookup_other; [ reflexivity | ].
  intros [ E | [] ]. now apply Hne.
Qed.

Lemma remaining_length (wc : string) (ks : list value) :
  forall rows : list row,
    pk_ok wc rows = true -> NoDup ks ->
    (forall k, In k ks -> existsb (sql_matches wc k) rows = true) ->
    List.length (remaining wc ks rows) + List.length ks = List.length rows.
Proof.
  induction ks as [ | k ks IH ]; intros rows Hpk Hnd Hex.
  - rewrite remaining_nil. cbn. lia.
  - inversion Hnd as [ | ? ? Hk Hnd' ]; subst.
    rewrite <- remaining_cons.
    pose proof (delete_where_one wc k rows Hpk (Hex k (or_introl eq_refl))) as H1.
    specialize (IH (delete_where wc k rows) (pk_ok_delete wc k rows Hpk) Hnd').
    rewrite <- H1. cbn [List.length]. rewrite <- IH; [ lia | ].
    intros k' Hin. rewrite exists_after_delete.
    + apply Hex. now right.
    + intros ->. contradiction.
Qed.

(** X5. On a table whose primary keys are distinct, deleting distinct
    keys that all have a row makes the row count drop by exactly the
    number of keys: [len(table)] before is the number of rows, and after
    [del table[arg]] it is that number less the number of keys. *)
Theorem Table_delitem_count (t : Table) (arg : value) (w : world) :
  bound (w_db w) t = true ->
  pk_ok (pk t) (db_rows (w_db w)) = true ->
  forallb is_scalar (keys (Table.__getitem__ t arg)) = true ->
  NoDup (keys (Table.__getitem__ t arg)) ->
  (forall k, In k (keys (Table.__getitem__ t arg)) ->
     row_exists (w_db w) (pk t) k = true) ->
  let n := Z.of_nat (List.length (db_rows (w_db w))) in
  let m := Z.of_nat (List.length (keys (Table.__getitem__ t arg))) in
  fst (Table.__len__ t w) = Ok (VInt n)
  /\ fst ((Table.__delitem__ t arg ;;; Table.__len__ t) w) = Ok (VInt (n - m)%Z).
Proof.
  intros Hb Hpk Hs Hnd Hex n m.
  pose proof (bound_name _ _ Hb) as Hn.
  split.
  - destruct (Table_len_run t w Hn) as (cur & Hrun). now rewrite Hrun.
  - unfold bind.
    destruct (Table_delitem_run t arg w Hb Hs) as (cur & Hrun).
    rewrite Hrun.
    match goal with
    | |- context [Table.__len__ t ?w1] =>
        destruct (Table_len_run t w1 Hn) as (cur' & Hlen)
    end.
    rewrite Hlen. cbn [fst w_db db_rows set_rows]. do 2 f_equal.
    pose proof (remaining_length (pk t) _ _ Hpk Hnd Hex) as H.
    subst n m. lia.
Qed.

Lemma Table_delitem_count_witness :
  fst ((Table.__delitem__ Example.sales (VTuple [VStr "T121"; VStr "T122"])
        ;;; Table.__len__ Example.sales) Example.w0)
  = Ok (VInt 0).
Proof.
  assert (Hnd : NoDup (keys (Table.__getitem__ Example.sales
                               (VTuple [VStr "T121"; VStr "T122"])))).
  { cbn. repeat constructor; simpl; intuition discriminate. }
  assert (Hex : forall k,
             In k (keys (Table.__getitem__ Example.sales
                           (VTuple [VStr "T121"; VStr "T122"]))) ->
             row_exists (w_db Example.w0) (pk Example.sales) k = true).
  { intros k [ <- | [ <- | [] ] ]; reflexivity. }
  exact (proj2 (Table_delitem_count Example.sales
                  (VTuple [VStr "T121"; VStr "T122"]) Example.w0
                  eq_refl eq_refl eq_refl Hnd Hex)).
Defined.

(* ================================================================= *)
(** ** Row writes followed by reads *)

Lemma keys_sset (c : string) (v : value) (d : sdict) :
  dict_keys (sset c v d)
  = if existsb (String.eqb c) (dict_keys d) then dict_keys d
    else dict_keys d ++ [c].
Proof. exact (dict_keys_set string value String.eqb String.eqb_eq c v d). Qed.

Lemma nodup_snoc {A} (l : list A) (x : A) :
  NoDup l -> ~ In x l -> NoDup (l ++ [x]).
Proof.
  induction 1 as [ | y l Hy Hnd IH ]; intros Hx; cbn.
  - constructor; [ intros [] | constructor ].
  - constructor.
    + intros Hin. apply in_app_or in Hin as [ Hin | [ -> | [] ] ].
      * contradiction.
      * apply Hx. now left.
    + apply IH. intros Hin. apply Hx. now right.
Qed.

Lemma nodup_sset (c : string) (v : value) (d : sdict) :
  NoDup (dict_keys d) -> NoDup (dict_keys (sset c v d)).
Proof.
  intros Hnd. rewrite keys_sset.
  destruct (existsb (String.eqb c) (dict_keys d)) eqn:E; [ exact Hnd | ].
  apply nodup_snoc; [ exact Hnd | ].
  intros Hin.
  assert (existsb (String.eqb c) (dict_keys d) = true); [ | congruence ].
  apply existsb_exists. exists c. split; [ exact Hin | apply String.eqb_refl ].
Qed.

Lemma scalar_values_sset (c : string) (v : value) (d : sdict) :
  forallb is_scalar (dict_values d) = true -> is_scalar v = true ->
  forallb is_scalar (dict_values (sset c v d)) = true.
Proof.
  intros Hvs Hv. induction d as [ | [c0 v0] d IH ]; simpl in *.
  - now rewrite Hv.
  - apply andb_true_iff in Hvs as [Hv0 Hvs].
    destruct (String.eqb c0 c); simpl.
    + now rewrite Hv, Hvs.
    + now rewrite Hv0, IH.
Qed.

Lemma storable_sset (db : database) (c : string) (v : value) (d : sdict) :
  storable db d = true -> has_col db c = true -> is_scalar v = true ->
  storable db (sset c v d) = true.
Proof.
  unfold storable. intros H Hc Hv.
  apply andb_true_iff in H as [Hk Hvs].
  rewrite scalar_values_sset, andb_true_r by assumption.
  rewrite keys_sset.
  destruct (existsb (String.eqb c) (dict_keys d)); [ exact Hk | ].
  rewrite forallb_app, Hk. cbn. now rewrite Hc.
Qed.

(** Binding the columns of a mapping with distinct keys to its values
    builds the mapping. *)
Lemma assign_mapping (d : sdict) :
  NoDup (dict_keys d) -> assign (dict_keys d) (dict_values d) [] = d.
Proof.
  intros Hnd. unfold assign. rewrite combine_keys_values.
  exact (dict_of_pairs_nodup d [] Hnd).
Qed.

Lemma row_get_assign_in (c : string) (v : value) (d : sdict) :
  forall r : row,
    NoDup (dict_keys d) -> sget c d = Some v ->
    row_get c (assign (dict_keys d) (dict_values d) r) = v.
Proof.
  induction d as [ | [c0 v0] d IH ]; intros r Hnd Hget; [ discriminate | ].
  inversion Hnd as [ | ? ? Hc0 Hnd' ]; subst.
  unfold assign. cbn [dict_keys dict_values map combine fold_left fst snd].
  fold (dict_keys d) (dict_values d) (assign (dict_keys d) (dict_values d) (sset c0 v0 r)).
  cbn in Hget. destruct (String.eqb c0 c) eqn:E.
  - apply String.eqb_eq in E. subst c0. injection Hget as <-.
    rewrite row_get_assign.
    + unfold row_get. now rewrite sget_sset_same.
    + destruct (existsb (String.eqb c) (dict_keys d)) eqn:Ex; [ | reflexivity ].
      exfalso. apply Hc0. apply existsb_exists in Ex as (c' & Hin & Ec).
      apply String.eqb_eq in Ec. now subst.
  - now apply IH.
Qed.

Lemma row_get_assign_out (c : string) (d : sdict) (r : row) :
  sget c d = None ->
  row_get c (assign (dict_keys d) (dict_values d) r) = row_get c r.
Proof.
  intros Hget. apply row_get_assign.
  destruct (existsb (String.eqb c) (dict_keys d)) eqn:Ex; [ | reflexivity ].
  apply existsb_exists in Ex as (c' & Hin & Ec).
  apply String.eqb_eq in Ec. subst c'.
  exfalso. revert Hget Hin. clear.
  induction d as [ | [c0 v0] d IH ]; cbn; [ contradiction | ].
  destruct (String.eqb c0 c) eqn:E; [ discriminate | ].
  intros Hget [ -> | Hin ]; [ now rewrite String.eqb_refl in E | now apply IH ].
Qed.

Lemma find_app' {A} (p : A -> bool) (l l' : list A) :
  find p (l ++ l')
  = match find p l with Some x => Some x | None => find p l' end.
Proof.
  induction l as [ | x l IH ]; [ reflexivity | ].
  cbn. destruct (p x); [ reflexivity | exact IH ].
Qed.

Lemma exists_by_pk (db : database) (wc : string) (key : value) :
  is_none key = false ->
  existsb (fun r => value_eqb (row_get wc r) key) (db_rows db)
  = row_exists db wc key.
Proof.
  intros Hk. unfold row_exists, sql_matches. rewrite Hk. reflexivity.
Qed.

(** The verdict on the INSERT of a storable mapping that holds [key]
    under the primary key: accepted, appending the mapping as a row,
    when the key has no row; an integrity error when it has one. *)
Lemma exec_insert_verdict (db : database) (t : Table) (key : value)
      (d : sdict) :
  bound db t = true -> NoDup (dict_keys d) -> storable db d = true ->
  sget (pk t) d = Some key -> is_none key = false ->
  exec db (SInsert (name t) (dict_keys d)) (dict_values d)
  = if row_exists db (pk t) key then inl IntegrityError
    else inr (set_rows db (db_rows db ++ [d]), no_results).
Proof.
  intros Hb Hnd Hst Hpk Hk.
  unfold storable in Hst. apply andb_true_iff in Hst as [Hcols Hvals].
  unfold exec, insert.
  rewrite (bound_name _ _ Hb), Hvals, Hcols. cbn [negb].
  destruct d as [ | [c0 v0] d0 ] eqn:Ed; [ discriminate | ].
  rewrite <- Ed in *. clear Ed c0 v0 d0.
  replace (match dict_keys d with [] => true | _ :: _ => false end) with false
    by (destruct d; [ discriminate | reflexivity ]).
  replace (Nat.eqb (List.length (dict_values d)) (List.length (dict_keys d)))
    with true
    by (symmetry; apply Nat.eqb_eq; unfold dict_keys, dict_values;
        now rewrite !length_map).
  cbn [negb]. rewrite assign_mapping by exact Hnd.
  rewrite <- (bound_pk _ _ Hb).
  assert (Hrow : row_get (pk t) d = key) by (unfold row_get; now rewrite Hpk).
  rewrite Hrow, Hk. cbn [orb].
  now rewrite exists_by_pk by exact Hk.
Qed.

Lemma sget_none_not_key (c : string) (d : sdict) :
  sget c d = None -> existsb (String.eqb c) (dict_keys d) = false.
Proof.
  induction d as [ | [c0 v0] d IH ]; [ reflexivity | ].
  cbn. rewrite (String.eqb_sym c c0).
  destruct (String.eqb c0 c); [ discriminate | exact IH ].
Qed.

Lemma find_append_same (wc : string) (key : value) (rows : list row)
      (d : row) :
  find (sql_matches wc key) rows = None ->
  row_get wc d = key -> is_none key = false ->
  find (sql_matches wc key) (rows ++ [d]) = Some d.
Proof.
  intros Hnone Hrow Hk. rewrite find_app', Hnone. cbn.
  unfold sql_matches. now rewrite Hrow, Hk, value_eqb_refl.
Qed.

Lemma find_append_other (wc : string) (k key : value) (rows : list row)
      (d : row) :
  k <> key -> row_get wc d = key ->
  find (sql_matches wc k) (rows ++ [d]) = find (sql_matches wc k) rows.
Proof.
  intros Hne Hrow. rewrite find_app'.
  destruct (find (sql_matches wc k) rows); [ reflexivity | ].
  cbn. unfold sql_matches. rewrite Hrow.
  replace (value_eqb key k) with false; [ now rewrite andb_false_r | ].
  symmetry. apply value_eqb_neq. congruence.
Qed.

Lemma getitem_single_key (t : Table) (key : value) :
  is_scalar key = true -> Table.__getitem__ t key = mkPivot t [key].
Proof.
  intros Hk. unfold Table.__getitem__.
  destruct key; try discriminate; reflexivity.
Qed.

(** The row write to a key without a row, with a storable mapping:
    accepted, and the mapping with the key becomes the last row. *)
Lemma Table_setitem_insert_ok (t : Table) (key : value) (ref : nat)
      (d : sdict) (w : world) :
  bound (w_db w) t = true ->
  is_scalar key = true -> is_none key = false ->
  nth_error (w_store w) ref = Some d ->
  NoDup (dict_keys d) -> storable (w_db w) d = true ->
  row_exists (w_db w) (pk t) key = false ->
  let d' := sset (pk t) key d in
  let rows' := db_rows (w_db w) ++ [d'] in
  exists cur,
    Table.__setitem__ t key ref w
    = (Ok tt,
       mkWorld (set_rows (w_db w) rows') rows' cur
               (replace_nth ref d' (w_store w))
               (w_log w ++ [probe_event t key; insert_event t key d; EvCommit])).
Proof.
  intros Hb Hk Hnn Hd Hnd Hst Hmiss d' rows'.
  destruct (Table_setitem_run t key ref d w Hb Hk Hd) as (cur & Hrun).
  rewrite Hrun. clear Hrun.
  unfold write_event, updates. rewrite Hmiss. cbn [andb].
  unfold insert_event, verdict. fold d'.
  rewrite (exec_insert_verdict (w_db w) t key d'); try assumption.
  - rewrite Hmiss. exists no_results. cbn [db_rows set_rows].
    now rewrite <- app_assoc.
  - now apply nodup_sset.
  - apply storable_sset; [ exact Hst | now apply bound_has_pk | exact Hk ].
  - apply sget_sset_same.
Qed.

(** X1. A row write to a bindable key that has no row, with a mapping of
    distinct columns of the table and bindable values, returns; reading
    afterwards through [table[key]] gives, for each column of the
    mapping, the value written, the key for the primary-key column and
    [None] for every other column; [len(table)] has grown by one and
    every other key finds the row it found before. *)
Theorem Table_set_then_get_inserted (t : Table) (key : value) (ref : nat)
        (d : sdict) (w : world) :
  bound (w_db w) t = true ->
  is_scalar key = true -> is_none key = false ->
  nth_error (w_store w) ref = Some d ->
  NoDup (dict_keys d) -> storable (w_db w) d = true ->
  row_exists (w_db w) (pk t) key = false ->
  exists w1,
    Table.__setitem__ t key ref w = (Ok tt, w1)
    /\ (forall c v, sget c d = Some v -> c <> pk t ->
          fst (Pivot.__getitem__ (Table.__getitem__ t key) (OneCol c) false w1)
          = Ok v)
    /\ fst (Pivot.__getitem__ (Table.__getitem__ t key) (OneCol (pk t)) false w1)
       = Ok key
    /\ (forall c, has_col (w_db w) c = true -> sget c d = None -> c <> pk t ->
          fst (Pivot.__getitem__ (Table.__getitem__ t key) (OneCol c) false w1)
          = Ok VNone)
    /\ fst (Table.__len__ t w1)
       = Ok (VInt (Z.of_nat (List.length (db_rows (w_db w))) + 1))
    /\ (forall k, k <> key ->
          lookup (w_db w1) (pk t) k = lookup (w_db w) (pk t) k).
Proof.
  intros Hb Hk Hnn Hd Hnd Hst Hmiss.
  destruct (Table_setitem_insert_ok t key ref d w Hb Hk Hnn Hd Hnd Hst Hmiss)
    as (cur & Hrun).
  eexists. split; [ exact Hrun | ].
  set (d' := sset (pk t) key d).
  match goal with |- context [Pivot.__getitem__ _ _ _ ?w0] => set (w1 := w0) end.
  assert (Hb1 : bound (w_db w1) t = true) by exact Hb.
  assert (Hpk : row_get (pk t) d' = key).
  { unfold row_get, d'. now rewrite sget_sset_same. }
  assert (Hrow : lookup (w_db w1) (pk t) key = Some d').
  { unfold lookup. cbn [w1 w_db db_rows set_rows].
    apply find_append_same; try assumption.
    rewrite row_exists_lookup in Hmiss. unfold lookup in Hmiss.
    now destruct (find _ _). }
  assert (Hread : forall c, has_col (w_db w) c = true ->
            fst (Pivot.__getitem__ (Table.__getitem__ t key) (OneCol c) false w1)
            = Ok (row_get c d')).
  { intros c Hc. rewrite getitem_single_key by exact Hk.
    destruct (Pivot_getitem_run (mkPivot t [key]) (OneCol c) false w1)
      as (w2 & Hget & _).
    rewrite Hget. cbn [fst table keys cols_of map sequence].
    rewrite per_key_single, Hrow by assumption. reflexivity. }
  assert (Hcols : forall c v, sget c d = Some v -> has_col (w_db w) c = true).
  { intros c v Hget. unfold storable in Hst. apply andb_true_iff in Hst as [Hst _].
    rewrite forallb_forall in Hst. apply Hst. exact (sget_in_keys c v d Hget). }
  split; [ | split; [ | split; [ | split ] ] ].
  - intros c v Hget Hne. rewrite (Hread c (Hcols c v Hget)).
    unfold row_get, d'. now rewrite sget_sset_other, Hget.
  - rewrite (Hread (pk t) (bound_has_pk _ _ Hb)). now rewrite Hpk.
  - intros c Hc Hget Hne. rewrite (Hread c Hc).
    unfold row_get, d'. now rewrite sget_sset_other, Hget.
  - destruct (Table_len_run t w1 (bound_name _ _ Hb1)) as (cur' & Hlen).
    rewrite Hlen. cbn [fst w1 w_db db_rows set_rows].
    rewrite length_app. cbn [List.length]. do 2 f_equal. lia.
  - intros k Hne. unfold lookup. cbn [w1 w_db db_rows set_rows].
    apply (find_append_other (pk t) k key); assumption.
Qed.

Lemma Table_set_then_get_inserted_witness :
  exists w1,
    Table.__setitem__ Example.sales (VStr "T9") 0 Example.w0 = (Ok tt, w1)
    /\ fst (Pivot.__getitem__ (Table.__getitem__ Example.sales (VStr "T9"))
                              (OneCol "quantity") false w1) = Ok (VInt 7).
Proof.
  assert (Hnd : NoDup (dict_keys [("quantity", VInt 7)])).
  { repeat constructor. intros []. }
  destruct (Table_set_then_get_inserted Example.sales (VStr "T9") 0
              [("quantity", VInt 7)] Example.w0
              eq_refl eq_refl eq_refl eq_refl Hnd eq_refl eq_refl)
    as (w1 & Hrun & Hread & _).
  exists w1. split; [ exact Hrun | ].
  apply Hread; [ reflexivity | discriminate ].
Defined.

(** The row write to a key that has a row, on a table that is not
    insert-only, with a non-empty storable mapping that does not assign
    the primary key: accepted, rewriting the row in place. *)
Lemma Table_setitem_update_ok (t : Table) (key : value) (ref : nat)
      (d : sdict) (w : world) :
  bound (w_db w) t = true ->
  is_scalar key = true ->
  nth_error (w_store w) ref = Some d ->
  storable (w_db w) d = true -> d <> [] -> sget (pk t) d = None ->
  row_exists (w_db w) (pk t) key = true -> insert_only t = false ->
  let rows' := update_where (pk t) key (dict_keys d) (dict_values d)
                            (db_rows (w_db w)) in
  exists cur,
    Table.__setitem__ t key ref w
    = (Ok tt,
       mkWorld (set_rows (w_db w) rows') rows' cur (w_store w)
               (w_log w ++ [probe_event t key; update_event t key d; EvCommit])).
Proof.
  intros Hb Hk Hd Hst Hne Hpk Hex Hio rows'.
  destruct (Table_setitem_run t key ref d w Hb Hk Hd) as (cur & Hrun).
  rewrite Hrun. clear Hrun.
  unfold write_event, updates. rewrite Hex, Hio. cbn [andb negb].
  unfold update_event, verdict.
  unfold storable in Hst. apply andb_true_iff in Hst as [Hcols Hvals].
  rewrite exec_update_ok; try assumption.
  - exists no_results. cbn [db_rows set_rows]. now rewrite <- app_assoc.
  - unfold columns_ok. rewrite Hcols, andb_true_r.
    destruct d; [ contradiction | reflexivity ].
  - now apply sget_none_not_key.
  - unfold dict_keys, dict_values. now rewrite !length_map.
Qed.

(** X2. A row write to a key that has a row, on a table that is not
    insert-only (the mapping non-empty, of distinct columns other than
    the primary key, with bindable values), updates in place: reading
    afterwards gives the written value for each column of the mapping
    and what was read before for every other column; [len(table)] is
    unchanged and every other key finds the row it found before. *)
Theorem Table_set_then_get_updated (t : Table) (key : value) (ref : nat)
        (d : sdict) (w : world) :
  bound (w_db w) t = true ->
  is_scalar key = true ->
  nth_error (w_store w) ref = Some d ->
  NoDup (dict_keys d) -> storable (w_db w) d = true ->
  d <> [] -> sget (pk t) d = None ->
  row_exists (w_db w) (pk t) key = true -> insert_only t = false ->
  exists w1,
    Table.__setitem__ t key ref w = (Ok tt, w1)
    /\ (forall c v, sget c d = Some v ->
          fst (Pivot.__getitem__ (Table.__getitem__ t key) (OneCol c) false w1)
          = Ok v)
    /\ (forall c, has_col (w_db w) c = true -> sget c d = None ->
          fst (Pivot.__getitem__ (Table.__getitem__ t key) (OneCol c) false w1)
          = fst (Pivot.__getitem__ (Table.__getitem__ t key) (OneCol c) false w))
    /\ fst (Table.__len__ t w1) = fst (Table.__len__ t w)
    /\ (forall k, k <> key ->
          lookup (w_db w1) (pk t) k = lookup (w_db w) (pk t) k).
Proof.
  intros Hb Hk Hd Hnd Hst Hne Hpk Hex Hio.
  destruct (Table_setitem_update_ok t key ref d w Hb Hk Hd Hst Hne Hpk Hex Hio)
    as (cur & Hrun).
  eexists. split; [ exact Hrun | ].
  match goal with |- context [Pivot.__getitem__ _ _ _ ?w0] => set (w1 := w0) end.
  assert (Hb1 : bound (w_db w1) t = true) by exact Hb.
  rewrite row_exists_lookup in Hex.
  destruct (lookup (w_db w) (pk t) key) as [ r | ] eqn:Hrow; [ | discriminate ].
  assert (Hnot : existsb (String.eqb (pk t)) (dict_keys d) = false)
    by now apply sget_none_not_key.
  assert (Hrow1 : lookup (w_db w1) (pk t) key
                  = Some (assign (dict_keys d) (dict_values d) r)).
  { unfold lookup in *. cbn [w1 w_db db_rows set_rows].
    rewrite lookup_update_same by exact Hnot. now rewrite Hrow. }
  assert (Hread : forall (w0 : world) (r0 : row) (c : string),
            bound (w_db w0) t = true -> has_col (w_db w0) c = true ->
            lookup (w_db w0) (pk t) key = Some r0 ->
            fst (Pivot.__getitem__ (Table.__getitem__ t key) (OneCol c) false w0)
            = Ok (row_get c r0)).
  { intros w0 r0 c Hb0 Hc Hr0. rewrite getitem_single_key by exact Hk.
    destruct (Pivot_getitem_run (mkPivot t [key]) (OneCol c) false w0)
      as (w2 & Hget & _).
    rewrite Hget. cbn [fst table keys cols_of map sequence].
    rewrite per_key_single, Hr0 by assumption. reflexivity. }
  split; [ | split; [ | split ] ].
  - intros c v Hget.
    assert (Hc : has_col (w_db w) c = true).
    { unfold storable in Hst. apply andb_true_iff in Hst as [Hst _].
      rewrite forallb_forall in Hst. apply Hst. exact (sget_in_keys c v d Hget). }
    rewrite (Hread w1 _ c Hb1 Hc Hrow1). f_equal.
    now apply row_get_assign_in.
  - intros c Hc Hget.
    rewrite (Hread w1 _ c Hb1 Hc Hrow1), (Hread w r c Hb Hc Hrow). f_equal.
    now apply row_get_assign_out.
  - destruct (Table_len_run t w1 (bound_name _ _ Hb1)) as (c1 & H1).
    destruct (Table_len_run t w (bound_name _ _ Hb)) as (c0 & H0).
    rewrite H1, H0. cbn [fst w1 w_db db_rows set_rows].
    now rewrite update_where_length.
  - intros k Hk'. unfold lookup. cbn [w1 w_db db_rows set_rows].
    now apply lookup_update_other.
Qed.

Lemma Table_set_then_get_updated_witness :
  exists w1,
    Table.__setitem__ Example.sales (VStr "T121") 0 Example.w0 = (Ok tt, w1)
    /\ fst (Pivot.__getitem__ (Table.__getitem__ Example.sales (VStr "T121"))
                              (OneCol "quantity") false w1) = Ok (VInt 7)
    /\ fst (Pivot.__getitem__ (Table.__getitem__ Example.sales (VStr "T121"))
                              (OneCol "discount") false w1) = Ok (VInt 5).
Proof.
  assert (Hnd : NoDup (dict_keys [("quantity", VInt 7)])).
  { repeat constructor. intros []. }
  assert (Hne : [("quantity", VInt 7)] <> ([] : sdict)) by discriminate.
  destruct (Table_set_then_get_updated Example.sales (VStr "T121") 0
              [("quantity", VInt 7)] Example.w0
              eq_refl eq_refl eq_refl Hnd eq_refl Hne eq_refl eq_refl eq_refl)
    as (w1 & Hrun & Hnew & Hold & _).
  exists w1. split; [ exact Hrun | split ].
  - apply Hnew. reflexivity.
  - rewrite Hold; reflexivity.
Defined.

Lemma exists_not_none (db : database) (wc : string) (key : value) :
  row_exists db wc key = true -> is_none key = false.
Proof.
  unfold row_exists. intros H. apply existsb_exists in H as (r & _ & Hm).
  unfold sql_matches in Hm. apply andb_true_iff in Hm as [Hm _].
  now apply negb_true_iff in Hm.
Qed.

(** X3. On an insert-only table a row write to a key that already has a
    row is refused: the INSERT is issued after the probe and the
    driver's integrity error is raised, with no commit and the table as
    it was.  The caller's mapping has nevertheless been given the key
    under the primary-key column. *)
Theorem Table_set_insert_only_refuses (t : Table) (key : value) (ref : nat)
        (d : sdict) (w : world) :
  bound (w_db w) t = true ->
  is_scalar key = true ->
  nth_error (w_store w) ref = Some d ->
  NoDup (dict_keys d) -> storable (w_db w) d = true ->
  row_exists (w_db w) (pk t) key = true -> insert_only t = true ->
  let run := Table.__setitem__ t key ref w in
  fst run = Raise (DriverError IntegrityError)
  /\ issued w (snd run)
     = [EvExecute (SSelect [pk t] (name t) (pk t)) [key];
        EvExecute (SInsert (name t) (dict_keys (sset (pk t) key d)))
                  (dict_values (sset (pk t) key d))]
  /\ w_db (snd run) = w_db w
  /\ w_committed (snd run) = w_committed w
  /\ nth_error (w_store (snd run)) ref = Some (sset (pk t) key d).
Proof.
  intros Hb Hk Hd Hnd Hst Hex Hio run.
  destruct (Table_setitem_run t key ref d w Hb Hk Hd) as (cur & Hrun).
  subst run. rewrite Hrun. clear Hrun.
  unfold write_event, updates. rewrite Hex, Hio. cbn [andb negb].
  unfold insert_event, verdict.
  rewrite (exec_insert_verdict (w_db w) t key (sset (pk t) key d));
    try assumption.
  - rewrite Hex. cbn [fst snd w_db w_committed w_store].
    repeat split.
    + now apply issued_app.
    + now apply (nth_error_replace_same _ _ _ d).
  - now apply nodup_sset.
  - apply storable_sset; [ exact Hst | now apply bound_has_pk | exact Hk ].
  - apply sget_sset_same.
  - exact (exists_not_none _ _ _ Hex).
Qed.

Lemma Table_set_insert_only_refuses_witness :
  fst (Table.__setitem__ (mkTable "sales" "transaction_id" true) (VStr "T121") 0
                         Example.w0)
  = Raise (DriverError IntegrityError).
Proof.
  assert (Hnd : NoDup (dict_keys [("quantity", VInt 7)])).
  { repeat constructor. intros []. }
  exact (proj1 (Table_set_insert_only_refuses
                  (mkTable "sales" "transaction_id" true) (VStr "T121") 0
                  [("quantity", VInt 7)] Example.w0
                  eq_refl eq_refl eq_refl Hnd eq_refl eq_refl eq_refl)).
Defined.

(** X6. Deleting a key and then writing a row to it always takes the
    insert path: the pair of calls returns and the row of the key is
    then exactly the mapping with the key under the primary-key column
    (whatever the row held before, if there was one), while every other
    key finds the row it found before. *)
Theorem Table_del_then_set_replaces (t : Table) (key : value) (ref : nat)
        (d : sdict) (w : world) :
  bound (w_db w) t = true ->
  is_scalar key = true -> is_none key = false ->
  nth_error (w_store w) ref = Some d ->
  NoDup (dict_keys d) -> storable (w_db w) d = true ->
  exists w2,
    (Table.__delitem__ t key ;;; Table.__setitem__ t key ref) w = (Ok tt, w2)
    /\ lookup (w_db w2) (pk t) key = Some (sset (pk t) key d)
    /\ (forall k, k <> key ->
          lookup (w_db w2) (pk t) k = lookup (w_db w) (pk t) k).
Proof.
  intros Hb Hk Hnn Hd Hnd Hst.
  assert (Hks : keys (Table.__getitem__ t key) = [key])
    by now rewrite getitem_single_key.
  assert (Hs : forallb is_scalar (keys (Table.__getitem__ t key)) = true)
    by (rewrite Hks; cbn; now rewrite Hk).
  destruct (Table_delitem_run t key w Hb Hs) as (cur & Hdel).
  rewrite Hks in Hdel. unfold bind. rewrite Hdel.
  match goal with |- context [Table.__setitem__ t key ref ?w0] => set (w1 := w0) end.
  assert (Hmiss : row_exists (w_db w1) (pk t) key = false).
  { unfold row_exists. cbn [w1 w_db db_rows set_rows].
    apply remaining_no_match. now left. }
  destruct (Table_setitem_insert_ok t key ref d w1 Hb Hk Hnn Hd Hnd Hst Hmiss)
    as (cur' & Hset).
  rewrite Hset. eexists. split; [ reflexivity | ].
  assert (Hpk : row_get (pk t) (sset (pk t) key d) = key).
  { unfold row_get. now rewrite sget_sset_same. }
  unfold lookup. cbn [w1 w_db db_rows set_rows]. split.
  - apply find_append_same; try assumption.
    rewrite row_exists_lookup in Hmiss. unfold lookup in Hmiss.
    cbn [w1 w_db db_rows set_rows] in Hmiss. now destruct (find _ _).
  - intros k Hne.
    rewrite (find_append_other (pk t) k key) by assumption.
    apply remaining_lookup_other. intros [ E | [] ]. now apply Hne.
Qed.

Lemma Table_del_then_set_replaces_witness :
  exists w2,
    (Table.__delitem__ Example.sales (VStr "T121")
     ;;; Table.__setitem__ Example.sales (VStr "T121") 0) Example.w0
    = (Ok tt, w2)
    /\ lookup (w_db w2) "transaction_id" (VStr "T121")
       = Some [("quantity", VInt 7); ("transaction_id", VStr "T121")].
Proof.
  assert (Hnd : NoDup (dict_keys [("quantity", VInt 7)])).
  { repeat constructor. intros []. }
  destruct (Table_del_then_set_replaces Example.sales (VStr "T121") 0
              [("quantity", VInt 7)] Example.w0
              eq_refl eq_refl eq_refl eq_refl Hnd eq_refl)
    as (w2 & Hrun & Hrow & _).
  exists w2. split; [ exact Hrun | exact Hrow ].
Defined.

(* ================================================================= *)
(** ** Commits, failed batches and rollback *)

Lemma batch_commit_committed (tbl : string) (cs : list string) (wc : string)
      (pairs : list (value * value)) (w : world) (res : outcome unit)
      (w1 : world) :
  (Pivot.executemany_with_keys (SUpdate tbl cs wc) pairs ;;; commit) w
  = (res, w1) ->
  w_committed w1
  = match res with Ok _ => db_rows (w_db w1) | Raise _ => w_committed w end.
Proof.
  unfold bind.
  destruct (Pivot.executemany_with_keys _ pairs w) as [ [ [] | e ] w0 ] eqn:Hrun;
    intros H; injection H as <- <-.
  - reflexivity.
  - destruct (executemany_frame _ _ _ _ _ _ _ Hrun)
      as (_ & _ & _ & _ & _ & _ & _ & Hcm). exact Hcm.
Qed.

(** What a column write leaves committed: the written rows when it
    returns, what was committed before when it raises. *)
Lemma Pivot_setitem_committed (p : Pivot) (cols : colsarg) (values : value)
      (w : world) (res : outcome unit) (w1 : world) :
  Pivot.__setitem__ p cols values w = (res, w1) ->
  w_committed w1
  = match res with Ok _ => db_rows (w_db w1) | Raise _ => w_committed w end.
Proof.
  unfold Pivot.__setitem__.
  set (values' := if Nat.eqb (List.length (keys p)) 1 then VTuple [values]
                  else values).
  unfold bind at 2.
  destruct cols as [ c | cs ];
    unfold bind at 2, Pivot.iterate;
    destruct (iter_value values') as [ vs | ];
    try (intros H; injection H as <- <-; reflexivity);
    unfold ret at 1; cbn [fst snd]; apply batch_commit_committed.
Qed.

(** X12. [Table.rollback] after a column write: when the write raised,
    the table is back to the rows committed before it, whatever part of
    the batch had been executed; when it returned, rollback changes no
    row, the write being committed.  [Pivot.rollback] raises
    [AttributeError] (a pivot has no [local]) and touches nothing. *)
Theorem rollback_after_column_write (p : Pivot) (cols : colsarg)
        (values : value) (w : world) :
  let run := Pivot.__setitem__ p cols values w in
  let back := snd (Table.rollback (table p) (snd run)) in
  db_rows (w_db back)
  = match fst run with
    | Ok _ => db_rows (w_db (snd run))
    | Raise _ => w_committed w
    end
  /\ Pivot.rollback p (snd run) = (Raise (AttributeError "local"), snd run).
Proof.
  intros run back. split; [ | reflexivity ].
  subst back. unfold Table.rollback, rollback. cbn [snd w_db db_rows set_rows].
  destruct run as [res w1] eqn:Hrun. cbn [fst snd].
  exact (Pivot_setitem_committed p cols values w res w1 Hrun).
Qed.




Lemma rollback_after_column_write_witness :
  db_rows (w_db (snd (Pivot.__setitem__
                        (mkPivot Example.sales [VStr "T121"; VStr "T122"])
                        (Cols ["quantity"])
                        (VTuple [VTuple [VInt 1]; VInt 2]) Example.w0)))
  <> db_rows (w_db Example.w0)
  /\ db_rows (w_db (snd (Table.rollback Example.sales
                           (snd (Pivot.__setitem__
                                   (mkPivot Example.sales
                                            [VStr "T121"; VStr "T122"])
                                   (Cols ["quantity"])
                                   (VTuple [VTuple [VInt 1]; VInt 2])
                                   Example.w0)))))
     = db_rows (w_db Example.w0).
Proof.
  split.
  - cbv. discriminate.
  - exact (proj1 (rollback_after_column_write
                    (mkPivot Example.sales [VStr "T121"; VStr "T122"])
                    (Cols ["quantity"]) (VTuple [VTuple [VInt 1]; VInt 2])
                    Example.w0)).
Defined.

(** The parameter tuples before the key is appended: a lone value is
    wrapped under one column name. *)
Lemma setitem_pairs (t : Table) (ks : list value) (cols : colsarg)
      (rows : list value) (w : world) :
  List.length ks <> 1 ->
  Pivot.__setitem__ (mkPivot t ks) cols (VTuple rows) w
  = (Pivot.executemany_with_keys
       (SUpdate (name t) (cols_of cols) (pk t))
       (combine (match cols with
                 | OneCol _ => map (fun v => VTuple [v]) rows
                 | Cols _ => rows
                 end) ks) ;;; commit) w.
Proof.
  intros Hlen. unfold Pivot.__setitem__. cbn [keys table].
  destruct (Nat.eqb (List.length ks) 1) eqn:E.
  - apply Nat.eqb_eq in E. contradiction.
  - destruct cols; reflexivity.
Qed.

Lemma setitem_pairs_one (t : Table) (k : value) (cols : colsarg)
      (v : value) (w : world) :
  Pivot.__setitem__ (mkPivot t [k]) cols v w
  = (Pivot.executemany_with_keys
       (SUpdate (name t) (cols_of cols) (pk t))
       (combine (match cols with
                 | OneCol _ => map (fun v => VTuple [v]) [v]
                 | Cols _ => [v]
                 end) [k]) ;;; commit) w.
Proof. destruct cols; reflexivity. Qed.

Lemma combine_more_right {A B} (l : list A) (l' extra : list B) :
  List.length l = List.length l' -> combine l (l' ++ extra) = combine l l'.
Proof.
  revert l'. induction l as [ | a l IH ]; intros [ | b l' ] H;
    try discriminate; [ reflexivity | ].
  cbn. f_equal. apply IH. simpl in H. lia.
Qed.

Lemma combine_more_left {A B} (l extra : list A) (l' : list B) :
  List.length l = List.length l' -> combine (l ++ extra) l' = combine l l'.
Proof.
  revert l'. induction l as [ | a l IH ]; intros [ | b l' ] H;
    try discriminate.
  - now destruct extra.
  - cbn. f_equal. apply IH. simpl in H. lia.
Qed.

(** Keys beyond the values take no part in a column write. *)
Lemma setitem_more_keys (t : Table) (cols : colsarg) (ks rows extra : list value)
      (w : world) :
  List.length rows = List.length ks -> List.length (ks ++ extra) <> 1 ->
  Pivot.__setitem__ (mkPivot t (ks ++ extra)) cols (VTuple rows) w
  = Pivot.__setitem__ (mkPivot t ks) cols (value_over ks rows) w.
Proof.
  intros Hlen Hne. rewrite setitem_pairs by exact Hne.
  rewrite combine_more_right by (destruct cols; now rewrite ?length_map).
  destruct ks as [ | k [ | k' ks' ] ].
  - now rewrite setitem_pairs by discriminate.
  - destruct rows as [ | r [ | r' rows' ] ]; try discriminate.
    now rewrite setitem_pairs_one.
  - now rewrite setitem_pairs by discriminate.
Qed.

(** The documented value of a column write, by its per-key values. *)
Lemma value_over_assigned (ks : list value) (cols : colsarg)
      (vss : list (list value)) :
  List.length vss = List.length ks ->
  value_over ks (per_key_values cols vss) = assigned ks cols vss.
Proof.
  intros Hlen.
  destruct ks as [ | k [ | k' ks' ] ]; destruct cols; try reflexivity;
    destruct vss as [ | vs [ | vs' vss' ] ]; try discriminate; reflexivity.
Qed.

(** A statement with the wrong number of parameters, or with one that is
    not a scalar, is refused. *)
Lemma exec_update_refused (db : database) (t : Table) (cs : list string)
      (ps : list value) :
  bound db t = true -> columns_ok db cs = true ->
  forallb is_scalar ps = false \/ List.length ps <> S (List.length cs) ->
  exec db (SUpdate (name t) cs (pk t)) ps = inl BadParameters.
Proof.
  intros Hb Hc Hbad.
  destruct (columns_ok_cons _ _ Hc) as [(c & cs' & Ecs) Hall].
  unfold exec, update. rewrite (bound_name _ _ Hb). rewrite Ecs at 1.
  destruct (forallb is_scalar ps) eqn:Hs; [ | reflexivity ].
  destruct Hbad as [ Hbad | Hbad ]; [ discriminate | ].
  apply Nat.eqb_neq in Hbad. now rewrite Hbad.
Qed.

(** X14. A column write pairs the items of the value with the keys of
    the pivot, in order, until either runs out; a pivot of exactly one
    key takes the value whole.  For every table, column argument and
    state: (1) on a pivot of other than one key, with as many items as
    leading keys, the write is the same run (outcome, statements, table
    and commit) as the write of those per-key values over the leading
    keys alone; (2) on a pivot of other than one key, items beyond the
    last key, of any kind, change nothing; (3) when the table is bound,
    the columns are columns of the table other than the primary key and
    the per-key values are well shaped, such a write over more keys than
    values returns, has written the leading keys, and every key outside
    them finds the row it found before; (4) on a bound table a pivot of
    one key does not cut the value to fit: a tuple whose number of items
    is not the number of columns is sent to the driver, which refuses the
    statement, and nothing is written or committed. *)
Theorem Pivot_setitem_pairs_off (t : Table) (cols : colsarg) (w : world) :
  (forall ks rows extra,
     List.length rows = List.length ks -> List.length (ks ++ extra) <> 1 ->
     Pivot.__setitem__ (mkPivot t (ks ++ extra)) cols (VTuple rows) w
     = Pivot.__setitem__ (mkPivot t ks) cols (value_over ks rows) w)
  /\ (forall ks rows surplus,
        List.length rows = List.length ks -> List.length ks <> 1 ->
        Pivot.__setitem__ (mkPivot t ks) cols (VTuple (rows ++ surplus)) w
        = Pivot.__setitem__ (mkPivot t ks) cols (VTuple rows) w)
  /\ (forall ks vss extra,
        bound (w_db w) t = true ->
        columns_ok (w_db w) (cols_of cols) = true ->
        existsb (String.eqb (pk t)) (cols_of cols) = false ->
        well_shaped (cols_of cols) ks vss = true ->
        List.length (ks ++ extra) <> 1 ->
        exists w1,
          Pivot.__setitem__ (mkPivot t (ks ++ extra)) cols
                            (VTuple (per_key_values cols vss)) w
          = (Ok tt, w1)
          /\ db_rows (w_db w1)
             = batch_rows (pk t) (cols_of cols) ks vss (db_rows (w_db w))
          /\ (forall k, ~ In k ks ->
                lookup (w_db w1) (pk t) k = lookup (w_db w) (pk t) k))
  /\ (forall k items,
        bound (w_db w) t = true ->
        columns_ok (w_db w) (cols_of cols) = true ->
        List.length items <> List.length (cols_of cols) ->
        fst (Pivot.__setitem__ (mkPivot t [k]) cols (VTuple items) w)
        = Raise (DriverError BadParameters)
        /\ w_db (snd (Pivot.__setitem__ (mkPivot t [k]) cols (VTuple items) w))
           = w_db w
        /\ w_committed
             (snd (Pivot.__setitem__ (mkPivot t [k]) cols (VTuple items) w))
           = w_committed w).
Proof.
  split; [ | split; [ | split ] ].
  - intros ks rows extra. apply setitem_more_keys.
  - intros ks rows surplus Hlen Hne. rewrite !setitem_pairs by exact Hne.
    destruct cols; rewrite ?map_app;
      rewrite combine_more_left by (now rewrite ?length_map); reflexivity.
  - intros ks vss extra Hb Hc Hpk Hws Hne.
    destruct (well_shaped_inv _ _ _ Hws) as (Hlen & _ & _).
    rewrite setitem_more_keys;
      [ | destruct cols; cbn [per_key_values]; now rewrite length_map
        | exact Hne ].
    rewrite value_over_assigned by exact Hlen.
    rewrite Pivot_setitem_normalised by exact Hws.
    destruct (executemany_ok t (cols_of cols) ks vss w Hb Hc Hpk Hws)
      as (cur & log' & Hrun).
    unfold bind. rewrite Hrun. eexists. split; [ reflexivity | ].
    cbn [w_db db_rows set_rows]. split; [ reflexivity | ].
    intros k Hnot. unfold lookup. now apply lookup_batch_absent.
  - intros k items Hb Hc Hlen.
    rewrite setitem_pairs_one. unfold bind.
    assert (E : exists ps,
               combine (match cols with
                        | OneCol _ => map (fun v => VTuple [v]) [VTuple items]
                        | Cols _ => [VTuple items]
                        end) [k] = [(VTuple ps, k)]
               /\ (forallb is_scalar (ps ++ [k]) = false
                   \/ List.length (ps ++ [k])
                      <> S (List.length (cols_of cols)))).
    { destruct cols as [ c | cs ].
      - exists [VTuple items]. split; [ reflexivity | ]. now left.
      - exists items. split; [ reflexivity | ]. right.
        rewrite length_app. cbn [List.length cols_of] in *. lia. }
    destruct E as (ps & -> & Hbad).
    cbn [Pivot.executemany_with_keys]. unfold bind, execute.
    rewrite (exec_update_refused _ t _ _ Hb Hc Hbad). repeat split.
Qed.

Lemma Pivot_setitem_pairs_off_witness :
  (exists w1,
     Pivot.__setitem__ (mkPivot Example.sales [VStr "T121"; VStr "T122"])
                       (Cols ["quantity"]) (VTuple [VTuple [VInt 1]])
                       Example.w0 = (Ok tt, w1)
     /\ lookup (w_db w1) "transaction_id" (VStr "T122")
        = lookup (w_db Example.w0) "transaction_id" (VStr "T122"))
  /\ fst (Pivot.__setitem__ (mkPivot Example.sales [VStr "T121"])
                            (Cols ["quantity"]) (VTuple [VInt 1; VInt 2])
                            Example.w0)
     = Raise (DriverError BadParameters).
Proof.
  destruct (Pivot_setitem_pairs_off Example.sales (Cols ["quantity"])
              Example.w0) as (_ & _ & Hkeys & Hone).
  split.
  - destruct (Hkeys [VStr "T121"] [[VInt 1]] [VStr "T122"]
                eq_refl eq_refl eq_refl eq_refl) as (w1 & Hrun & _ & Hkept).
    + discriminate.
    + exists w1. split; [ exact Hrun | ].
      apply Hkept. cbn. intuition discriminate.
  - apply (Hone (VStr "T121") [VInt 1; VInt 2] eq_refl eq_refl). discriminate.
Defined.

(** X15. Row writes and deletes leave nothing to roll back.  On a table
    that holds what was last committed, [Table.rollback] right after a
    row write changes no row, whether the write returned or was refused
    by the driver; and right after a delete over bindable keys it
    changes no row either. *)
Theorem rollback_after_row_write (t : Table) (w : world) :
  bound (w_db w) t = true ->
  clean w ->
  (forall key ref d,
     is_scalar key = true -> nth_error (w_store w) ref = Some d ->
     db_rows (w_db (snd (Table.rollback t
                           (snd (Table.__setitem__ t key ref w)))))
     = db_rows (w_db (snd (Table.__setitem__ t key ref w))))
  /\ (forall arg,
        forallb is_scalar (keys (Table.__getitem__ t arg)) = true ->
        db_rows (w_db (snd (Table.rollback t
                              (snd (Table.__delitem__ t arg w)))))
        = db_rows (w_db (snd (Table.__delitem__ t arg w)))).
Proof.
  intros Hb Hclean. unfold clean in Hclean. split.
  - intros key ref d Hk Hd.
    destruct (Table_setitem_run t key ref d w Hb Hk Hd) as (cur & Hrun).
    rewrite Hrun. unfold Table.rollback, rollback.
    destruct (verdict _ _) as [ e | [db' cur'] ];
      cbn [snd w_db w_committed db_rows set_rows]; [ exact Hclean | reflexivity ].
  - intros arg Hs.
    destruct (Table_delitem_run t arg w Hb Hs) as (cur & Hrun).
    rewrite Hrun. reflexivity.
Qed.

Lemma rollback_after_row_write_witness :
  db_rows (w_db (snd (Table.rollback Example.sales
                        (snd (Table.__setitem__ Example.sales (VStr "T9") 0
                                                Example.w0)))))
  = db_rows (w_db (snd (Table.__setitem__ Example.sales (VStr "T9") 0
                                          Example.w0))).
Proof.
  exact (proj1 (rollback_after_row_write Example.sales Example.w0
                  eq_refl eq_refl)
               (VStr "T9") 0 [("quantity", VInt 7)] eq_refl eq_refl).
Defined.
